(** * Amazon price scraper ([main.py]): a functional model and its properties

    The development has three layers.

    - Python values the script manipulates: strings as sequences of code
      points, [float] as IEEE binary64, integers as [Z], and the handful of
      interpreter builtins whose Unicode tables are not part of the script
      ([str.lower], whitespace, decimal digits, [float(str)]), collected in
      the class [Builtins].
    - The browser: every lookup the script performs through Selenium is a
      finite table from locators to the elements found; a missing entry is
      [NoSuchElementException].
    - The script's functions, under their own names.

    Console output and the debug HTML dump are not modelled. *)

From Stdlib Require Import ZArith NArith Floats String Ascii List Lia.
From stdpp Require Import base option list gmap sorting pretty.

Local Open Scope string_scope.
Local Open Scope list_scope.

(** ** Strings *)

(** A Python [str] is a sequence of Unicode code points. *)
Abbreviation char := N (only parsing).
Abbreviation str := (list N) (only parsing).

(** ASCII literals of the script, as code points. *)
Fixpoint u (s : string) : str :=
  match s with
  | EmptyString => []
  | String a rest => N_of_ascii a :: u rest
  end.

Definition comma : char := 44%N.
Definition dot : char := 46%N.
Definition dollar : char := 36%N.
Definition pound : char := 163%N.
Definition euro : char := 8364%N.

(** The interpreter builtins the script relies on. *)
Class Builtins := {
  (** [Py_UNICODE_ISSPACE]: what [str.strip()] removes and what [\s] matches *)
  isspace : char -> bool;
  (** Unicode decimal digits: what [\d] matches in a [str] pattern *)
  isdecimal : char -> bool;
  (** [str.lower()] *)
  str_lower : str -> str;
  (** [float(s)]; [None] is [ValueError] *)
  float_of_str : str -> option float
}.

(** Truth value of a sequence: non-empty. *)
Definition truthy {A : Type} (l : list A) : bool :=
  match l with
  | [] => false
  | _ :: _ => true
  end.

(** [s.replace(",", "")] *)
Definition remove_commas (s : str) : str :=
  List.filter (fun c => negb (N.eqb c comma)) s.

(** [needle in haystack] for strings *)
Fixpoint startswith (s prefix : str) : bool :=
  match prefix, s with
  | [], _ => true
  | _ :: _, [] => false
  | p :: prefix', c :: s' => N.eqb p c && startswith s' prefix'
  end.

Fixpoint contains (haystack needle : str) : bool :=
  startswith haystack needle ||
  match haystack with
  | [] => false
  | _ :: rest => contains rest needle
  end.

(** [s.strip()] for a given whitespace class *)
Fixpoint lstrip_by (space : char -> bool) (s : str) : str :=
  match s with
  | [] => []
  | c :: rest => if space c then lstrip_by space rest else s
  end.

Definition strip_by (space : char -> bool) (s : str) : str :=
  rev (lstrip_by space (rev (lstrip_by space s))).

Section Strings.
Context `{Builtins}.

(** [s.strip()] *)
Definition strip (s : str) : str := strip_by isspace s.

(** *** The price pattern [([€$£])\s?(\d[\d,]*\.\d{2})]

    The matcher follows the backtracking order of [re]: a greedy
    quantifier first tries to consume, and gives the character back when
    the rest of the pattern fails. *)

Definition is_glyph (c : char) : bool :=
  N.eqb c euro || N.eqb c dollar || N.eqb c pound.

(** [\.\d{2}] at the head of [t] *)
Definition match_fraction (t : str) : option str :=
  match t with
  | p :: d1 :: d2 :: _ =>
      if N.eqb p dot && isdecimal d1 && isdecimal d2
      then Some [p; d1; d2] else None
  | _ => None
  end.

(** [[\d,]*\.\d{2}] at the head of [t], longest repetition first *)
Fixpoint match_group_tail (t : str) : option str :=
  match t with
  | [] => match_fraction t
  | c :: rest =>
      let longer :=
        if isdecimal c || N.eqb c comma
        then option_map (cons c) (match_group_tail rest) else None in
      match longer with
      | Some m => Some m
      | None => match_fraction t
      end
  end.

(** [(\d[\d,]*\.\d{2})] at the head of [t] *)
Definition match_number (t : str) : option str :=
  match t with
  | d :: rest =>
      if isdecimal d then option_map (cons d) (match_group_tail rest)
      else None
  | [] => None
  end.

(** The whole pattern anchored at the head of [t]: the two groups. *)
Definition match_here (t : str) : option (char * str) :=
  match t with
  | g :: rest =>
      if is_glyph g then
        let with_space :=
          match rest with
          | c :: rest' => if isspace c then match_number rest' else None
          | [] => None
          end in
        match with_space with
        | Some numeric => Some (g, numeric)
        | None => option_map (pair g) (match_number rest)
        end
      else None
  | [] => None
  end.

(** [re.search(pattern, text)]: the leftmost match, as [match.groups()]. *)
Fixpoint re_search_price (text : str) : option (char * str) :=
  match match_here text with
  | Some groups => Some groups
  | None =>
      match text with
      | [] => None
      | _ :: rest => re_search_price rest
      end
  end.
End Strings.

(** ** The browser *)

Inductive By := XPATH | CLASS_NAME | CSS_SELECTOR.

Definition By_eqb (a b : By) : bool :=
  match a, b with
  | XPATH, XPATH | CLASS_NAME, CLASS_NAME | CSS_SELECTOR, CSS_SELECTOR => true
  | _, _ => false
  end.

(** What a search context answers to [find_elements(by, value)]: the first
    row for the locator, in document order; no row means nothing matches. *)
Definition Lookups (E : Type) : Type := list (By * string * list E).

Fixpoint lookup_all {E : Type} (rows : Lookups E) (by_ : By) (value : string)
  : list E :=
  match rows with
  | [] => []
  | (b, v, found) :: rows' =>
      if By_eqb b by_ && String.eqb v value then found
      else lookup_all rows' by_ value
  end.

(** An element handle: its rendered text, its attributes and what is found
    below it. *)
#[local] Unset Elimination Schemes.
Inductive WebElement := Element {
  text : str;
  attributes : list (string * str);
  below : Lookups WebElement
}.
#[local] Set Elimination Schemes.

(** [element.find_element(by, value)]; [None] is [NoSuchElementException]. *)
Definition find_element (e : WebElement) (by_ : By) (value : string)
  : option WebElement :=
  head (lookup_all (below e) by_ value).

(** [element.get_attribute(name)]; [None] is Python's [None]. *)
Fixpoint assoc (name : string) (attrs : list (string * str)) : option str :=
  match attrs with
  | [] => None
  | (k, v) :: attrs' => if String.eqb k name then Some v else assoc name attrs'
  end.

Definition get_attribute (e : WebElement) (name : string) : option str :=
  assoc name (attributes e).

(** A loaded document answers the same kind of lookups. *)
Definition Document : Type := Lookups WebElement.

(** A browser session: [timeline n] is the document on screen after [n]
    activations of a pagination control, [now] counts the activations made
    so far. *)
Record WebDriver := {
  timeline : nat -> Document;
  now : nat
}.

Definition driver_find_elements (driver : WebDriver) (by_ : By) (value : string)
  : list WebElement :=
  lookup_all (timeline driver (now driver)) by_ value.

Definition driver_find_element (driver : WebDriver) (by_ : By) (value : string)
  : option WebElement :=
  head (driver_find_elements driver by_ value).

(** [driver.execute_script("arguments[0].click();", button)], followed by the
    wait for the next document. *)
Definition click (driver : WebDriver) (button : WebElement) : WebDriver :=
  {| timeline := timeline driver; now := S (now driver) |}.

(** ** The script *)

Record Product := {
  title : str;
  url : str;
  price : str;
  currency : str;
  page : Z;
  position : Z
}.

#[global] Instance By_eq_dec : EqDecision By.
Proof. solve_decision. Defined.

#[global] Instance Product_eq_dec : EqDecision Product.
Proof. solve_decision. Defined.

Section Script.
Context `{Builtins}.

(** [try: container.find_element(By.CLASS_NAME, cls).text.strip()
    except NoSuchElementException: ""] *)
Definition text_or_empty (container : WebElement) (cls : string) : str :=
  match find_element container CLASS_NAME cls with
  | Some e => strip (text e)
  | None => []
  end.

(** [_parse_price_block]: [Some (price, currency)], or [None] for the
    pair [(None, None)]; the script returns no other shape. *)
Definition _parse_price_block (product_element : WebElement)
  : option (str * str) :=
  match find_element product_element XPATH
          ".//span[contains(@class, 'a-price')]" with
  | None => None
  | Some price_container =>
      let offscreen_text := text_or_empty price_container "a-offscreen" in
      match offscreen_text with
      | currency_char :: rest =>
          let numeric_part := remove_commas (strip rest) in
          Some (numeric_part, [currency_char])
      | [] =>
          match find_element price_container CLASS_NAME "a-price-whole",
                find_element price_container CLASS_NAME "a-price-fraction"
          with
          | Some w, Some f =>
              let whole := strip (remove_commas (text w)) in
              let fraction := strip (text f) in
              let price_value := whole ++ [dot] ++ fraction in
              let currency_ := text_or_empty price_container "a-price-symbol" in
              if truthy price_value && truthy currency_
              then Some (price_value, currency_)
              else
                match re_search_price (text product_element) with
                | Some (currency_char, numeric) =>
                    Some (remove_commas numeric, [currency_char])
                | None => None
                end
          | _, _ => None
          end
      end
  end.

(** What one pass through the body of the [for] loop of
    [_scrape_products_on_current_page] does. *)
Inductive Outcome :=
| Appended (p : Product)   (* [products.append(...)] *)
| Continued                (* a [continue] inside the [try] *)
| Excepted.                (* [except Exception]: the counter goes up *)

(** [try: find(first) except NoSuchElementException: find(second)] *)
Definition find_with_fallback (e : WebElement) (first second : string)
  : option WebElement :=
  match find_element e CSS_SELECTOR first with
  | Some found => Some found
  | None => find_element e CSS_SELECTOR second
  end.

Definition scrape_element (page_number index : Z) (element : WebElement)
  : Outcome :=
  match find_with_fallback element "h2 span" "h2" with
  | None => Excepted
  | Some title_element =>
      match find_with_fallback element
              "a.a-link-normal.s-link-style" "a.a-link-normal" with
      | None => Excepted
      | Some link_element =>
          let title_ := strip (text title_element) in
          let product_url := get_attribute link_element "href" in
          match product_url with
          | None => Continued
          | Some product_url =>
              if negb (truthy title_) || negb (truthy product_url)
              then Continued
              else
                match _parse_price_block element with
                | None => Continued
                | Some (price_, currency_) =>
                    if negb (truthy price_) then Continued
                    else Appended {| title := title_;
                                     url := product_url;
                                     price := price_;
                                     currency := currency_;
                                     page := page_number;
                                     position := index |}
                end
          end
      end
  end.

(** The [for index, element in enumerate(product_elements, start=1)] loop,
    threading [products] and [skipped_due_to_errors]. *)
Fixpoint scrape_elements (page_number index : Z)
    (product_elements : list WebElement)
    (products : list Product) (skipped_due_to_errors : Z)
  : list Product * Z :=
  match product_elements with
  | [] => (products, skipped_due_to_errors)
  | element :: rest =>
      match scrape_element page_number index element with
      | Appended p =>
          scrape_elements page_number (index + 1) rest
            (products ++ [p]) skipped_due_to_errors
      | Continued =>
          scrape_elements page_number (index + 1) rest
            products skipped_due_to_errors
      | Excepted =>
          scrape_elements page_number (index + 1) rest
            products (skipped_due_to_errors + 1)
      end
  end.

(** The page scrape with both of its local results: the records and the
    skip counter it reports in its log line. *)
Definition scrape_page (driver : WebDriver) (page_number : Z)
  : list Product * Z :=
  let product_elements :=
    driver_find_elements driver XPATH
      "//div[@data-component-type='s-search-result']" in
  scrape_elements page_number 1 product_elements [] 0.

Definition _scrape_products_on_current_page (driver : WebDriver)
    (page_number : Z) : list Product :=
  fst (scrape_page driver page_number).

(** [_go_to_next_page]: the answer and the session afterwards. *)
Definition _go_to_next_page (driver : WebDriver) : bool * WebDriver :=
  match driver_find_element driver XPATH
          "//a[contains(@class, 's-pagination-next') and not(contains(@class, 's-pagination-disabled'))]"
  with
  | None => (false, driver)
  | Some next_button => (true, click driver next_button)
  end.

(** The [for product in products] loop of [_apply_filters], threading
    [filtered]. *)
Fixpoint filter_loop (query : option str)
    (min_price max_price : option float)
    (products filtered : list Product) : list Product :=
  match products with
  | [] => filtered
  | product :: rest =>
      let continue_ := filter_loop query min_price max_price rest filtered in
      if match query with
         | Some q => truthy q && negb (contains (str_lower (title product)) q)
         | None => false
         end
      then continue_
      else
        match float_of_str (price product) with
        | None => continue_
        | Some value =>
            if match min_price with
               | Some lo => (value <? lo)%float
               | None => false
               end
            then continue_
            else if match max_price with
                    | Some hi => (hi <? value)%float
                    | None => false
                    end
            then continue_
            else filter_loop query min_price max_price rest
                   (filtered ++ [product])
        end
  end.

(** [not title_contains]: [None] or the empty string. *)
Definition falsy_opt (s : option str) : bool :=
  match s with
  | None => true
  | Some s => negb (truthy s)
  end.

Definition is_None {A : Type} (o : option A) : bool :=
  match o with
  | None => true
  | Some _ => false
  end.

Definition _apply_filters (products : list Product)
    (min_price max_price : option float) (title_contains : option str)
  : list Product :=
  if is_None min_price && is_None max_price && falsy_opt title_contains
  then products
  else
    let query :=
      if falsy_opt title_contains then None
      else option_map str_lower title_contains in
    filter_loop query min_price max_price products [].
End Script.

(** ** The aggregation loop of [scrape_amazon_prices] *)

(** [l[:stop]] *)
Definition slice_to {A : Type} (l : list A) (stop : Z) : list A :=
  if (0 <=? stop)%Z then take (Z.to_nat stop) l
  else take (length l - Z.to_nat (- stop)) l.

(** The variables the [while True] loop updates, with [cycles] counting the
    calls of [_scrape_products_on_current_page] made so far. *)
Record LoopState := {
  driver : WebDriver;
  all_products : list Product;
  current_page : Z;
  cycles : nat
}.

(** How one pass through the loop body ends. *)
Inductive Flow :=
| Break (result : list Product) (scrapes : nat)
| Again (st : LoopState).

Section Aggregation.
Context `{Builtins}.
Variable max_pages : Z.
Variable max_products : option Z.
Variables min_price max_price : option float.
Variable title_contains : option str.

Definition iteration (st : LoopState) : Flow :=
  let page_products :=
    _scrape_products_on_current_page (driver st) (current_page st) in
  let page_products :=
    _apply_filters page_products min_price max_price title_contains in
  let all_products_ := all_products st ++ page_products in
  let cycles_ := S (cycles st) in
  let after_limit_check :=
    if (current_page st >=? max_pages)%Z then Break all_products_ cycles_
    else
      let '(has_next, driver_) := _go_to_next_page (driver st) in
      if negb has_next then Break all_products_ cycles_
      else Again {| driver := driver_;
                    all_products := all_products_;
                    current_page := (current_page st + 1)%Z;
                    cycles := cycles_ |} in
  match max_products with
  | Some limit =>
      if (Z.of_nat (length all_products_) >=? limit)%Z
      then Break (slice_to all_products_ limit) cycles_
      else after_limit_check
  | None => after_limit_check
  end.

(** The accumulator after the page at hand has been scraped, filtered and
    appended. *)
Definition extended (st : LoopState) : list Product :=
  all_products st ++
  _apply_filters
    (_scrape_products_on_current_page (driver st) (current_page st))
    min_price max_price title_contains.

(** [while True: ...], cut after [fuel] passes; [None] means the loop was
    still running. *)
Fixpoint while_true (fuel : nat) (st : LoopState) : option (list Product * nat) :=
  match fuel with
  | O => None
  | S fuel' =>
      match iteration st with
      | Break result scrapes => Some (result, scrapes)
      | Again st' => while_true fuel' st'
      end
  end.

(** The state in which the loop is entered, for the session opened on the
    start URL. *)
Definition initial (session : WebDriver) : LoopState :=
  {| driver := session; all_products := []; current_page := 1%Z; cycles := 0 |}.
End Aggregation.

(** [scrape_amazon_prices]: [web url] is what the browser shows for the start
    URL and after each activation of a pagination control. The result pairs
    the returned list with the number of page scrapes performed. *)
Definition scrape_amazon_prices `{Builtins} (fuel : nat)
    (web : str -> nat -> Document) (url : str)
    (max_pages : Z) (max_products : option Z)
    (min_price max_price : option float) (title_contains : option str)
  : option (list Product * nat) :=
  let session := {| timeline := web url; now := 0 |} in
  while_true max_pages max_products min_price max_price title_contains
    fuel (initial session).

(** ** Lists as objects

    [_apply_filters] once more, on list objects held in a store, to speak
    about which object is returned and which objects are written. *)

Abbreviation Store := (gmap positive (list Product)).

Section Objects.
Context `{Builtins}.

(** [filtered.append(product)] *)
Definition append (filtered : positive) (product : Product) (h : Store) : Store :=
  alter (fun l => l ++ [product]) filtered h.

Fixpoint filter_loop_obj (query : option str)
    (min_price max_price : option float)
    (products : list Product) (filtered : positive) (h : Store) : Store :=
  match products with
  | [] => h
  | product :: rest =>
      let continue_ :=
        filter_loop_obj query min_price max_price rest filtered h in
      if match query with
         | Some q => truthy q && negb (contains (str_lower (title product)) q)
         | None => false
         end
      then continue_
      else
        match float_of_str (price product) with
        | None => continue_
        | Some value =>
            if match min_price with
               | Some lo => (value <? lo)%float
               | None => false
               end
            then continue_
            else if match max_price with
                    | Some hi => (hi <? value)%float
                    | None => false
                    end
            then continue_
            else filter_loop_obj query min_price max_price rest filtered
                   (append filtered product h)
        end
  end.

(** The result is the returned reference and the store afterwards; [None]
    when [products] does not name a list. *)
Definition _apply_filters_obj (h : Store) (products : positive)
    (min_price max_price : option float) (title_contains : option str)
  : option (positive * Store) :=
  match h !! products with
  | None => None
  | Some items =>
      if is_None min_price && is_None max_price && falsy_opt title_contains
      then Some (products, h)
      else
        let filtered := fresh (dom h) in
        let h := <[filtered := []]> h in
        let query :=
          if falsy_opt title_contains then None
          else option_map str_lower title_contains in
        Some (filtered,
              filter_loop_obj query min_price max_price items filtered h)
  end.
End Objects.

(** ** The Filter Engine as the specification words it *)

Section FilterSpec.
Context `{Builtins}.

(** Case-insensitive substring match; an absent or empty query holds of
    every record. *)
Definition title_matches (title_contains : option str) (p : Product) : bool :=
  match title_contains with
  | None => true
  | Some q =>
      negb (truthy q) || contains (str_lower (title p)) (str_lower q)
  end.

Definition price_parses (p : Product) : bool :=
  match float_of_str (price p) with
  | Some _ => true
  | None => false
  end.

(** The loop's comparisons in closed form: a record passes a supplied
    bound when its price parses and the script's rejection test
    ([value < min_price], [value > max_price]) is false. *)
Definition passes_min (min_price : option float) (p : Product) : bool :=
  match min_price with
  | None => true
  | Some lo =>
      match float_of_str (price p) with
      | Some value => negb (value <? lo)%float
      | None => false
      end
  end.

Definition passes_max (max_price : option float) (p : Product) : bool :=
  match max_price with
  | None => true
  | Some hi =>
      match float_of_str (price p) with
      | Some value => negb (hi <? value)%float
      | None => false
      end
  end.

Definition passes (min_price max_price : option float)
    (title_contains : option str) (p : Product) : bool :=
  title_matches title_contains p
  && passes_min min_price p
  && passes_max max_price p.

(** The price predicates as the specification reads them: the parsed price
    is at least [min_price] ([price >= min_price]) and at most
    [max_price] ([price <= max_price]), in IEEE comparison. *)
Definition price_at_least (min_price : option float) (p : Product) : bool :=
  match min_price with
  | None => true
  | Some lo =>
      match float_of_str (price p) with
      | Some value => (lo <=? value)%float
      | None => false
      end
  end.

Definition price_at_most (max_price : option float) (p : Product) : bool :=
  match max_price with
  | None => true
  | Some hi =>
      match float_of_str (price p) with
      | Some value => (value <=? hi)%float
      | None => false
      end
  end.

(** All supplied predicates, absent ones vacuously true. *)
Definition satisfies (min_price max_price : option float)
    (title_contains : option str) (p : Product) : bool :=
  title_matches title_contains p
  && price_at_least min_price p
  && price_at_most max_price p.

(** "The subset satisfying all supplied predicates". *)
Definition filter_engine_spec (products : list Product)
    (min_price max_price : option float) (title_contains : option str)
  : list Product :=
  List.filter (satisfies min_price max_price title_contains) products.

(** A bound, or a parsed price, that is a number: not NaN. *)
Definition bound_is_number (bound : option float) : bool :=
  match bound with
  | Some b => negb (is_nan b)
  | None => true
  end.

Definition price_is_number (p : Product) : bool :=
  match float_of_str (price p) with
  | Some value => negb (is_nan value)
  | None => true
  end.

(** The lowered query the loop compares with. *)
Definition query_of (title_contains : option str) : option str :=
  if falsy_opt title_contains then None
  else option_map str_lower title_contains.

(** The test the loop applies to one record. *)
Definition kept (query : option str) (min_price max_price : option float)
    (p : Product) : bool :=
  negb match query with
       | Some q => truthy q && negb (contains (str_lower (title p)) q)
       | None => false
       end
  && match float_of_str (price p) with
     | None => false
     | Some value =>
         negb match min_price with
              | Some lo => (value <? lo)%float
              | None => false
              end
         && negb match max_price with
                 | Some hi => (hi <? value)%float
                 | None => false
                 end
     end.

(** No predicate is supplied. *)
Definition no_predicates (min_price max_price : option float)
    (title_contains : option str) : bool :=
  is_None min_price && is_None max_price && falsy_opt title_contains.
End FilterSpec.

(** ** A reference interpreter

    An instance of [Builtins] after CPython 3.11 (Unicode 14.0): white space
    and decimal digits are those of the Unicode tables; the case mapping is
    that of ASCII, letters outside ASCII are left as they are. *)

Definition in_range (lo hi c : N) : bool := ((lo <=? c) && (c <=? hi))%N.

Definition py_isspace (c : char) : bool :=
  in_range 9 13 c || in_range 28 32 c || N.eqb c 133 || N.eqb c 160
  || N.eqb c 5760 || in_range 8192 8202 c || in_range 8232 8233 c
  || N.eqb c 8239 || N.eqb c 8287 || N.eqb c 12288.

(** The digit zero of every decimal digit block (category Nd); the nine
    code points after it are the digits 1 to 9. *)
Definition decimal_zeros : list N :=
  [48; 1632; 1776; 1984; 2406; 2534; 2662; 2790; 2918; 3046; 3174; 3302;
   3430; 3558; 3664; 3792; 3872; 4160; 4240; 6112; 6160; 6470; 6608; 6784;
   6800; 6992; 7088; 7232; 7248; 42528; 43216; 43264; 43472; 43504; 43600;
   44016; 65296; 66720; 68912; 69734; 69872; 69942; 70096; 70384; 70736;
   70864; 71248; 71360; 71472; 71904; 72016; 72784; 73040; 73120; 92768;
   92864; 93008; 120782; 120792; 120802; 120812; 120822; 123200; 123632;
   125264; 130032]%N.

Definition decimal_zero (c : char) : option N :=
  List.find (fun zero => in_range zero (zero + 9) c) decimal_zeros.

Definition py_isdecimal (c : char) : bool :=
  match decimal_zero c with
  | Some _ => true
  | None => false
  end.

Definition lower_char (c : char) : char :=
  if in_range 65 90 c then (c + 32)%N else c.

Definition py_lower (s : str) : str := map lower_char s.

(** *** [float(str)]

    The string is first brought to ASCII: a decimal digit of any script
    becomes the ASCII digit of its value and white space outside ASCII
    becomes a blank. Then the ASCII white space around it is removed (the
    separators U+001C to U+001F are not white space here) and the rest is
    read by the grammar of the language reference:
    [[sign] (number [exponent] | "inf" | "infinity" | "nan")], a digit
    part being digits with single underscores between them. The decimal
    value is rounded to nearest-even binary64. *)

Definition float_char (c : char) : char :=
  if (c <? 127)%N then c
  else if py_isspace c then 32%N
  else
    match decimal_zero c with
    | Some zero => (48 + (c - zero))%N
    | None => c
    end.

Definition ascii_space (c : char) : bool := in_range 9 13 c || N.eqb c 32.

Definition digit_value (c : char) : option Z :=
  if in_range 48 57 c then Some (Z.of_N c - 48)%Z else None.

(** [(["_"] digit)*]: the digits read and what is left *)
Fixpoint digits_rest (t : str) : list Z * str :=
  match t with
  | [] => ([], [])
  | c :: r =>
      match digit_value c with
      | Some d => let '(ds, r') := digits_rest r in (d :: ds, r')
      | None =>
          if N.eqb c 95 then
            match r with
            | c2 :: r2 =>
                match digit_value c2 with
                | Some d => let '(ds, r') := digits_rest r2 in (d :: ds, r')
                | None => ([], t)
                end
            | [] => ([], t)
            end
          else ([], t)
      end
  end.

Definition digitpart (t : str) : option (list Z * str) :=
  match t with
  | [] => None
  | c :: r =>
      match digit_value c with
      | Some d => let '(ds, r') := digits_rest r in Some (d :: ds, r')
      | None => None
      end
  end.

(** An optional sign: [true] for minus *)
Definition read_sign (t : str) : bool * str :=
  match t with
  | c :: r =>
      if N.eqb c 45 then (true, r)
      else if N.eqb c 43 then (false, r)
      else (false, t)
  | [] => (false, [])
  end.

(** [[digitpart] "." digitpart | digitpart ["."]]: integer digits, fraction
    digits, rest *)
Definition read_number (t : str) : option (list Z * list Z * str) :=
  match digitpart t with
  | Some (ip, r) =>
      match r with
      | c :: r' =>
          if N.eqb c dot then
            match digitpart r' with
            | Some (fp, r'') => Some (ip, fp, r'')
            | None => Some (ip, [], r')
            end
          else Some (ip, [], r)
      | [] => Some (ip, [], [])
      end
  | None =>
      match t with
      | c :: r' =>
          if N.eqb c dot then
            match digitpart r' with
            | Some (fp, r'') => Some ([], fp, r'')
            | None => None
            end
          else None
      | [] => None
      end
  end.

Definition digits_value (ds : list Z) : Z :=
  fold_left (fun acc d => (10 * acc + d)%Z) ds 0%Z.

(** [[("e" | "E") [sign] digitpart]]: the exponent (0 when absent) and the
    rest *)
Definition read_exponent (t : str) : option (Z * str) :=
  match t with
  | c :: r =>
      if N.eqb c 101 || N.eqb c 69 then
        let '(neg, r1) := read_sign r in
        match digitpart r1 with
        | Some (ds, r2) =>
            Some ((if neg then - digits_value ds else digits_value ds)%Z, r2)
        | None => None
        end
      else Some (0%Z, t)
  | [] => Some (0%Z, [])
  end.

(** The binary64 nearest to [(-1)^neg * m * 10^e10] *)
Definition decimal_to_float (neg : bool) (m e10 : Z) : float :=
  SF2Prim
    match m with
    | Zpos p =>
        if (0 <=? e10)%Z
        then binary_round prec emax neg (p * Z.to_pos (10 ^ e10)) 0
        else SFdiv prec emax (S754_finite neg p 0)
               (S754_finite false (Z.to_pos (10 ^ (- e10))) 0)
    | _ => S754_zero neg
    end.

Definition py_float (s : str) : option float :=
  let '(neg, t) := read_sign (strip_by ascii_space (map float_char s)) in
  let name := py_lower t in
  if bool_decide (name = u "inf") || bool_decide (name = u "infinity")
  then Some (if neg then neg_infinity else infinity)
  else if bool_decide (name = u "nan") then Some nan
  else
    match read_number t with
    | Some (ip, fp, r) =>
        match read_exponent r with
        | Some (e, []) =>
            Some (decimal_to_float neg (digits_value (ip ++ fp))
                    (e - Z.of_nat (length fp)))
        | _ => None
        end
    | None => None
    end.

#[global] Instance cpython : Builtins := {|
  isspace := py_isspace;
  isdecimal := py_isdecimal;
  str_lower := py_lower;
  float_of_str := py_float
|}.

(** ** The Field Extractor's vocabulary *)

Section ExtractorSpec.
Context `{Builtins}.

Definition price_container (e : WebElement) : option WebElement :=
  find_element e XPATH ".//span[contains(@class, 'a-price')]".

Definition offscreen_text (pc : WebElement) : str :=
  text_or_empty pc "a-offscreen".

Definition whole_part (pc : WebElement) : option WebElement :=
  find_element pc CLASS_NAME "a-price-whole".

Definition fraction_part (pc : WebElement) : option WebElement :=
  find_element pc CLASS_NAME "a-price-fraction".

Definition symbol_text (pc : WebElement) : str :=
  text_or_empty pc "a-price-symbol".

(** The title and URL of a container when both extract and are non-empty. *)
Definition title_and_url (e : WebElement) : option (str * str) :=
  match find_with_fallback e "h2 span" "h2",
        find_with_fallback e "a.a-link-normal.s-link-style" "a.a-link-normal"
  with
  | Some title_element, Some link_element =>
      match get_attribute link_element "href" with
      | Some href =>
          if truthy (strip (text title_element)) && truthy href
          then Some (strip (text title_element), href) else None
      | None => None
      end
  | _, _ => None
  end.

(** No offscreen price string, no whole/fraction pair, no price-like text. *)
Definition lacks_price_sources (e : WebElement) : bool :=
  match price_container e with
  | None => true
  | Some pc =>
      negb (truthy (offscreen_text pc))
      && (is_None (whole_part pc) || is_None (fraction_part pc))
  end
  && is_None (re_search_price (text e)).

(** What the final fallback returns for a container: the first match's
    glyph and its number without commas. *)
Definition regex_price (e : WebElement) : option (str * str) :=
  match re_search_price (text e) with
  | Some (glyph, numeric) => Some (remove_commas numeric, [glyph])
  | None => None
  end.
End ExtractorSpec.

(** ** Sample pages *)

Definition leaf (t : string) : WebElement := Element (u t) [] [].

Definition anchor (name href : string) : WebElement :=
  Element (u name) [("href", u href)] [].

(** A search result: heading, link, and the price blocks found in it. *)
Definition listing (name href visible : string) (prices : list WebElement)
  : WebElement :=
  Element (u visible) []
    [ (CSS_SELECTOR, "h2 span", [leaf name]);
      (CSS_SELECTOR, "h2", [leaf name]);
      (CSS_SELECTOR, "a.a-link-normal.s-link-style", [anchor name href]);
      (CSS_SELECTOR, "a.a-link-normal", [anchor name href]);
      (XPATH, ".//span[contains(@class, 'a-price')]", prices) ].

(** A price block carrying only the formatted offscreen string. *)
Definition offscreen_block (formatted : string) : WebElement :=
  Element (u formatted) [] [ (CLASS_NAME, "a-offscreen", [leaf formatted]) ].

(** A price block carrying both representations. *)
Definition full_block (formatted symbol whole fraction : string) : WebElement :=
  Element (u formatted) []
    [ (CLASS_NAME, "a-offscreen", [leaf formatted]);
      (CLASS_NAME, "a-price-symbol", [leaf symbol]);
      (CLASS_NAME, "a-price-whole", [leaf whole]);
      (CLASS_NAME, "a-price-fraction", [leaf fraction]) ].

Definition sample_1 : WebElement :=
  listing "Sample Product 1" "https://www.example.com/product-1"
    "Sample Product 1 $19.99" [offscreen_block "$19.99"].

Definition sample_2 : WebElement :=
  listing "Sample Product 2" "https://www.example.com/product-2"
    "Sample Product 2 $42.50" [offscreen_block "$42.50"].

(** The third listing has no price element. *)
Definition sample_3 : WebElement :=
  listing "Sample Product 3" "https://www.example.com/product-3"
    "Sample Product 3 Currently unavailable" [].

(** A listing whose price block has neither an offscreen string nor the
    whole/fraction pair, while its visible text shows a price. *)
Definition text_only_listing : WebElement :=
  listing "Sample Product 4" "https://www.example.com/product-4"
    "Sample Product 4 $19.99" [leaf "$19.99"].

(** A listing whose price block has the whole/fraction pair but neither an
    offscreen string nor a currency symbol. *)
Definition pair_only_listing : WebElement :=
  listing "Sample Product 6" "https://www.example.com/product-6"
    "Sample Product 6 $ 1,019.99"
    [ Element (u "19.99") []
        [ (CLASS_NAME, "a-price-whole", [leaf "19"]);
          (CLASS_NAME, "a-price-fraction", [leaf "99"]) ] ].

(** A listing whose two price representations disagree. *)
Definition two_price_listing : WebElement :=
  listing "Sample Product 5" "https://www.example.com/product-5"
    "Sample Product 5 $19.99"
    [full_block "$1,019.99" "$" "18" "50"].

Definition results_of (listings : list WebElement) : Document :=
  [ (XPATH, "//div[@data-component-type='s-search-result']", listings) ].

Definition sample_page : Document := results_of [sample_1; sample_2; sample_3].

(** The same listings with an enabled next-page control. *)
Definition page_with_next : Document :=
  sample_page ++
  [ (XPATH,
     "//a[contains(@class, 's-pagination-next') and not(contains(@class, 's-pagination-disabled'))]",
     [leaf "Next"]) ].

(** A site with the single sample page, and one whose every page offers a
    next page. *)
Definition sample_web (url : str) (n : nat) : Document := sample_page.
Definition endless_web (url : str) (n : nat) : Document := page_with_next.

Definition sample_url : str := u "file:///sample_page.html".

Definition record_1 : Product :=
  {| title := u "Sample Product 1";
     url := u "https://www.example.com/product-1";
     price := u "19.99"; currency := u "$"; page := 1; position := 1 |}.

Definition record_2 : Product :=
  {| title := u "Sample Product 2";
     url := u "https://www.example.com/product-2";
     price := u "42.50"; currency := u "$"; page := 1; position := 2 |}.

(** A record as the extractor builds it from the offscreen string
    ["US$19.99"]: the first character becomes the currency. *)
Definition record_us : Product :=
  {| title := u "Wireless Mouse";
     url := u "https://www.example.com/mouse";
     price := u "S$19.99"; currency := u "U"; page := 1; position := 1 |}.

(** ** Saving the records: [save_products_to_csv] and [main]

    The [csv] module writes with its default dialect: fields separated by
    commas, a field quoted when it contains a comma, a double quote, a
    carriage return or a line feed, double quotes doubled inside a quoted
    field, rows ended by CR LF. The file is opened with [newline=""], so
    what the writer produces is what the file holds; the text is kept as
    code points, its UTF-8 encoding is not modelled, nor is a failure to
    open the file. *)

Definition dquote : char := 34%N.
Definition CR : char := 13%N.
Definition LF : char := 10%N.

Definition is_special (c : char) : bool :=
  N.eqb c comma || N.eqb c dquote || N.eqb c CR || N.eqb c LF.

Definition needs_quoting (field : str) : bool := existsb is_special field.

(** The inside of a quoted field: every double quote doubled. *)
Fixpoint double_quotes (field : str) : str :=
  match field with
  | [] => []
  | c :: rest =>
      if N.eqb c dquote then dquote :: dquote :: double_quotes rest
      else c :: double_quotes rest
  end.

Definition csv_field (field : str) : str :=
  if needs_quoting field then dquote :: double_quotes field ++ [dquote]
  else field.

Fixpoint join_fields (fields : list str) : str :=
  match fields with
  | [] => []
  | [field] => csv_field field
  | field :: rest => csv_field field ++ comma :: join_fields rest
  end.

(** [writer.writerow(fields)]; a row made of one empty field is written as
    a pair of quotes. *)
Definition csv_row (fields : list str) : str :=
  match fields with
  | [[]] => [dquote; dquote; CR; LF]
  | _ => join_fields fields ++ [CR; LF]
  end.

(** [str(n)] for an integer *)
Definition str_of_int (n : Z) : str := u (pretty n).

Definition fieldnames : list str :=
  [u "title"; u "url"; u "price"; u "currency"; u "page"; u "position"].

(** The values of [asdict(product)] in the order of [fieldnames], as the
    writer converts them. *)
Definition row_values (product : Product) : list str :=
  [title product; url product; price product; currency product;
   str_of_int (page product); str_of_int (position product)].

(** What [writeheader] and the [writerow] calls put into the file. *)
Definition csv_text (products : list Product) : str :=
  csv_row fieldnames ++ flat_map (fun p => csv_row (row_values p)) products.

(** Files by path. *)
Abbreviation FileSystem := (gmap (list N) (list N)).

Definition save_products_to_csv (fs : FileSystem) (products : list Product)
    (output_path : str) : FileSystem :=
  if negb (truthy products) then fs
  else <[output_path := csv_text products]> fs.

(** The parsed command line. *)
Record Namespace := {
  args_url : str;
  args_output : str;
  args_max_pages : Z;
  args_max_products : option Z;
  args_min_price : option float;
  args_max_price : option float;
  args_title_contains : option str
}.

(** The file [scrape_amazon_prices] dumps the first page into, named
    relative to the working directory. *)
Definition debug_path : str := u "debug_last_page.html".

(** [debug_path.write_text(driver.page_source, ...)] in its [try]: the
    file receives the source of the first page, unless the write raises
    ([writable] is false), which the script answers with a warning only.
    [resolve] gives the file a relative path names. *)
Definition dump_debug_page (writable : bool) (resolve : str -> str)
    (page_source : str) (fs : FileSystem) : FileSystem :=
  if writable then <[resolve debug_path := page_source]> fs else fs.

(** [main] after [parse_args], on the file system: the scrape dumps the
    first page, then the records are saved. [source url] is
    [driver.page_source] after loading [url], [resolve] is
    [Path(...).resolve()], and [None] means the scrape was still running
    when the fuel ran out. *)
Definition main `{Builtins} (fuel : nat) (web : str -> nat -> Document)
    (source : str -> str) (debug_writable : bool)
    (resolve : str -> str) (args : Namespace) (fs : FileSystem)
  : option FileSystem :=
  let fs := dump_debug_page debug_writable resolve (source (args_url args)) fs in
  match scrape_amazon_prices fuel web (args_url args) (args_max_pages args)
          (args_max_products args) (args_min_price args)
          (args_max_price args) (args_title_contains args) with
  | Some (products, _) =>
      let output_path := resolve (args_output args) in
      Some (save_products_to_csv fs products output_path)
  | None => None
  end.

(** ** Vocabulary for the further properties *)

(** What follows a field in a row: a comma or the row end. *)
Definition separator (c : char) : Prop := c = comma \/ c = CR.


(** A container in which the heading or the link cannot be found: the two
    lookups of the page loop that are left to [except Exception]. *)
Definition missing_heading_or_link (e : WebElement) : bool :=
  is_None (find_with_fallback e "h2 span" "h2")
  || is_None (find_with_fallback e
                "a.a-link-normal.s-link-style" "a.a-link-normal").

(** The records the containers yield, the first container having the given
    index. *)
Fixpoint records_from `{Builtins} (page_number index : Z)
    (elements : list WebElement) : list Product :=
  match elements with
  | [] => []
  | e :: rest =>
      match scrape_element page_number index e with
      | Appended p => p :: records_from page_number (index + 1) rest
      | _ => records_from page_number (index + 1) rest
      end
  end.

(** Document order within a page, and across pages. *)
Definition position_lt (a b : Product) : Prop :=
  (position a < position b)%Z.

Definition record_lt (a b : Product) : Prop :=
  (page a < page b)%Z \/ (page a = page b /\ position a < position b)%Z.

(** The character class of the price pattern's repetition: [[\d,]]. *)
Definition digit_or_comma `{Builtins} (c : char) : bool :=
  isdecimal c || N.eqb c comma.

(** A listing priced through the whole/fraction pair, with a comma in the
    fraction's text. *)
Definition comma_fraction_listing : WebElement :=
  listing "Sample Product 7" "https://www.example.com/product-7"
    "Sample Product 7"
    [ Element (u "$19 9,9") []
        [ (CLASS_NAME, "a-price-symbol", [leaf "$"]);
          (CLASS_NAME, "a-price-whole", [leaf "1,019"]);
          (CLASS_NAME, "a-price-fraction", [leaf "9,9"]) ] ].

(** Whether the document shown after [n] activations offers an enabled
    next-page control. *)
Definition has_next_control (documents : nat -> Document) (n : nat) : bool :=
  truthy
    (lookup_all (documents n) XPATH
       "//a[contains(@class, 's-pagination-next') and not(contains(@class, 's-pagination-disabled'))]").

(** The filtered records of the document shown after [n] activations,
    scraped as page [n + 1]. *)
Definition page_records `{Builtins} (documents : nat -> Document)
    (min_price max_price : option float) (title_contains : option str)
    (n : nat) : list Product :=
  _apply_filters
    (_scrape_products_on_current_page
       {| timeline := documents; now := n |} (Z.of_nat (S n)))
    min_price max_price title_contains.

(** The filtered records of the first [count] documents, in order. *)
Definition pages_records `{Builtins} (documents : nat -> Document)
    (min_price max_price : option float) (title_contains : option str)
    (count : nat) : list Product :=
  flat_map (page_records documents min_price max_price title_contains)
    (seq 0 count).

(** The loop is about to scrape the document after [n] activations as page
    [n + 1], having scraped [n] pages. *)
Definition at_page (documents : nat -> Document) (n : nat) (st : LoopState)
  : Prop :=
  driver st = {| timeline := documents; now := n |}
  /\ current_page st = Z.of_nat (S n)
  /\ cycles st = n.

(** What holds of a returned record: the fields are filled in, the page
    lies between 1 and [bound], the position is at least 1, and when a
    predicate is supplied the price parses and passes the script's tests;
    where no supplied bound and not the parsed price is NaN, all supplied
    predicates hold. *)
Definition well_formed `{Builtins} (min_price max_price : option float)
    (title_contains : option str) (bound : Z) (p : Product) : Prop :=
  title p <> [] /\ url p <> [] /\ price p <> [] /\ currency p <> []
  /\ (1 <= page p <= bound)%Z
  /\ (1 <= position p)%Z
  /\ (no_predicates min_price max_price title_contains = false ->
      price_parses p = true
      /\ passes min_price max_price title_contains p = true
      /\ (bound_is_number min_price = true ->
          bound_is_number max_price = true ->
          price_is_number p = true ->
          satisfies min_price max_price title_contains p = true)).

(** What the loop keeps between passes. *)
Definition loop_invariant `{Builtins} (min_price max_price : option float)
    (title_contains : option str) (st : LoopState) : Prop :=
  current_page st = Z.of_nat (S (cycles st))
  /\ Forall (well_formed min_price max_price title_contains
               (Z.of_nat (cycles st)))
       (all_products st)
  /\ StronglySorted record_lt (all_products st).

(** A listing whose offscreen string is a bare symbol while the
    whole/fraction pair holds a price. *)
Definition bare_symbol_listing : WebElement :=
  listing "Sample Product 8" "https://www.example.com/product-8"
    "Sample Product 8 $19.99"
    [full_block "$" "$" "19" "99"].

(** The command line [--url <sample> --output out.csv --max-pages 1
    --max-products 1], parsed. *)
Definition sample_args : Namespace :=
  {| args_url := sample_url;
     args_output := u "out.csv";
     args_max_pages := 1;
     args_max_products := Some 1%Z;
     args_min_price := None;
     args_max_price := None;
     args_title_contains := None |}.

(** * Properties *)

(** ** Sanity checks on the sample page *)

Example scrape_sample_page :
  scrape_amazon_prices 1 sample_web sample_url 1 None None None None
  = Some ([record_1; record_2], 1).
Proof. vm_compute. reflexivity. Qed.

Example scrape_sample_page_min_price :
  scrape_amazon_prices 1 sample_web sample_url 1 None (Some 20%float) None None
  = Some ([record_2], 1).
Proof. vm_compute. reflexivity. Qed.

Example scrape_sample_page_title :
  scrape_amazon_prices 1 sample_web sample_url 1 None None None
    (Some (u "product 1"))
  = Some ([record_1], 1).
Proof. vm_compute. reflexivity. Qed.

Example scrape_sample_page_max_products :
  scrape_amazon_prices 1 sample_web sample_url 1 (Some 1%Z) None None None
  = Some ([record_1], 1).
Proof. vm_compute. reflexivity. Qed.

Example scrape_endless_three_pages :
  option_map snd
    (scrape_amazon_prices 10 endless_web sample_url 3 None None None None)
  = Some 3.
Proof. vm_compute. reflexivity. Qed.

Example parse_two_price_listing :
  _parse_price_block two_price_listing = Some (u "1019.99", u "$").
Proof. vm_compute. reflexivity. Qed.

Example parse_text_only_listing :
  _parse_price_block text_only_listing = None.
Proof. vm_compute. reflexivity. Qed.

(** ** Lists *)

Section ListFacts.
Context {A : Type}.

Lemma filter_bool_sublist (f : A -> bool) (l : list A) :
  List.filter f l `sublist_of` l.
Proof.
  induction l as [|x l IH]; simpl.
  - constructor.
  - destruct (f x); [apply sublist_skip | apply sublist_cons]; exact IH.
Qed.

Lemma elem_of_filter_bool (f : A -> bool) (l : list A) (x : A) :
  x ∈ List.filter f l <-> x ∈ l /\ f x = true.
Proof. rewrite !list_elem_of_In. apply filter_In. Qed.

Lemma sublist_elem_of (l k : list A) (x : A) :
  l `sublist_of` k -> x ∈ l -> x ∈ k.
Proof.
  induction 1 as [|y l k _ IH|y l k _ IH]; intros Hx.
  - exact Hx.
  - apply elem_of_cons in Hx as [->|Hx]; [left | right; auto].
  - right; auto.
Qed.

Lemma sublist_count_occ (dec : forall x y : A, {x = y} + {x <> y})
    (l k : list A) (x : A) :
  l `sublist_of` k -> count_occ dec l x <= count_occ dec k x.
Proof.
  induction 1 as [|y l k _ IH|y l k _ IH]; simpl.
  - lia.
  - destruct (dec y x); lia.
  - destruct (dec y x); lia.
Qed.

Lemma filter_bool_ext_in (f g : A -> bool) (l : list A) :
  (forall x, x ∈ l -> f x = g x) -> List.filter f l = List.filter g l.
Proof.
  intros Hfg. apply filter_ext_in. intros x Hx. apply Hfg.
  apply list_elem_of_In. exact Hx.
Qed.

Lemma intersection_of_filters `{!EqDecision A} (f g : A -> bool)
    (l k : list A) :
  (forall x, x ∈ l -> (x ∈ k <-> g x = true)) ->
  list_intersection (List.filter f l) k
  = List.filter (fun x => f x && g x) l.
Proof.
  induction l as [|x l IH]; intros Hk; simpl; [reflexivity|].
  assert (Hl : forall y, y ∈ l -> (y ∈ k <-> g y = true)).
  { intros y Hy. apply Hk. right. exact Hy. }
  specialize (IH Hl).
  destruct (f x) eqn:Hf; simpl.
  - destruct (decide_rel elem_of x k) as [Hin|Hout].
    + apply Hk in Hin; [|left]. rewrite Hin. f_equal. exact IH.
    + destruct (g x) eqn:Hg; [|exact IH].
      exfalso. apply Hout. apply Hk; [left | exact Hg].
  - exact IH.
Qed.
End ListFacts.

(** ** Comparing floats *)

Section FloatFacts.

Lemma SFcompare_antisym (a b : spec_float) :
  SFcompare b a = option_map CompOpp (SFcompare a b).
Proof.
  destruct a as [sa|sa| |sa ma ea], b as [sb|sb| |sb mb eb];
    try destruct sa; try destruct sb; try reflexivity;
    cbn [SFcompare option_map]; f_equal;
    rewrite (Z.compare_antisym ea eb);
    pose proof (Pos.compare_cont_antisym ma mb Eq) as Hm;
    cbn [CompOpp] in Hm;
    destruct (ea ?= eb)%Z; cbn [CompOpp]; rewrite <- ?Hm;
    rewrite ?CompOpp_involutive; reflexivity.
Qed.

Lemma SFcompare_number (a b : spec_float) :
  a <> S754_nan -> b <> S754_nan -> SFcompare a b <> None.
Proof.
  destruct a, b; intros Ha Hb; try contradiction; discriminate.
Qed.

Lemma SFltb_negb_SFleb (a b : spec_float) :
  a <> S754_nan -> b <> S754_nan -> SFltb a b = negb (SFleb b a).
Proof.
  intros Ha Hb. pose proof (SFcompare_number a b Ha Hb) as Hsome.
  unfold SFltb, SFleb. rewrite (SFcompare_antisym a b).
  destruct (SFcompare a b) as [[| |]|]; try reflexivity. contradiction.
Qed.

Lemma is_nan_Prim2SF (x : float) : is_nan x = false -> Prim2SF x <> S754_nan.
Proof.
  unfold is_nan. rewrite FloatAxioms.eqb_spec. intros Hx Hnan. rewrite Hnan in Hx.
  discriminate.
Qed.

(** Between numbers, [x < y] is the negation of [y <= x]. *)
Lemma ltb_negb_leb (x y : float) :
  is_nan x = false -> is_nan y = false ->
  (x <? y)%float = negb (y <=? x)%float.
Proof.
  intros Hx Hy. rewrite FloatAxioms.ltb_spec, FloatAxioms.leb_spec.
  apply SFltb_negb_SFleb; apply is_nan_Prim2SF; assumption.
Qed.
End FloatFacts.

(** ** The Filter Engine *)

Section FilterFacts.
Context `{Builtins}.

(** Where no NaN is involved, passing the loop's comparisons is satisfying
    the bounds. *)
Lemma passes_satisfies lo hi title_contains p :
  bound_is_number lo = true -> bound_is_number hi = true ->
  price_is_number p = true ->
  passes lo hi title_contains p = satisfies lo hi title_contains p.
Proof.
  unfold bound_is_number, price_is_number, passes, satisfies, passes_min,
    passes_max, price_at_least, price_at_most.
  intros Hlo Hhi Hp.
  destruct (float_of_str (price p)) as [value|]; [|reflexivity].
  apply negb_true_iff in Hp.
  assert (Hmin : forall b, is_nan b = false ->
                 negb (value <? b)%float = (b <=? value)%float).
  { intros b Hb. rewrite ltb_negb_leb by assumption.
    apply negb_involutive. }
  assert (Hmax : forall b, is_nan b = false ->
                 negb (b <? value)%float = (value <=? b)%float).
  { intros b Hb. rewrite ltb_negb_leb by assumption.
    apply negb_involutive. }
  destruct lo as [lo|], hi as [hi|];
    try apply negb_true_iff in Hlo; try apply negb_true_iff in Hhi;
    rewrite ?Hmin, ?Hmax by assumption; reflexivity.
Qed.

(** The loop appends, in order, the records that pass its test. *)
Lemma filter_loop_eq query lo hi products filtered :
  filter_loop query lo hi products filtered
  = filtered ++ List.filter (kept query lo hi) products.
Proof.
  revert filtered.
  induction products as [|p rest IH]; intros filtered; simpl.
  - symmetry. apply app_nil_r.
  - unfold kept at 1.
    destruct (match query with
              | Some q => truthy q && negb (contains (str_lower (title p)) q)
              | None => false
              end); simpl; [apply IH|].
    destruct (float_of_str (price p)) as [value|]; [|apply IH].
    destruct (match lo with
              | Some lo0 => (value <? lo0)%float
              | None => false
              end); simpl; [apply IH|].
    destruct (match hi with
              | Some hi0 => (hi0 <? value)%float
              | None => false
              end); simpl; [apply IH|].
    rewrite IH, <- app_assoc. reflexivity.
Qed.

Lemma contains_nil haystack : contains haystack [] = true.
Proof. destruct haystack; reflexivity. Qed.

(** The loop's test is: the price parses and every supplied predicate
    holds. *)
Lemma kept_query_of lo hi title_contains p :
  kept (query_of title_contains) lo hi p
  = price_parses p && passes lo hi title_contains p.
Proof.
  unfold kept, query_of, price_parses, passes, title_matches,
    passes_min, passes_max, falsy_opt.
  destruct title_contains as [[|c q]|]; simpl;
    try (destruct (str_lower (c :: q)) as [|c' q'];
         [rewrite contains_nil|]; simpl);
    destruct (float_of_str (price p)) as [value|]; simpl;
    repeat match goal with
           | |- context [contains ?a ?b] => destruct (contains a b); simpl
           end;
    destruct lo as [lo|], hi as [hi|]; simpl;
    repeat match goal with
           | |- context [PrimFloat.ltb ?a ?b] =>
               destruct (PrimFloat.ltb a b); simpl
           end;
    reflexivity.
Qed.

(** [_apply_filters] in closed form. *)
Lemma apply_filters_eq products lo hi title_contains :
  _apply_filters products lo hi title_contains
  = if no_predicates lo hi title_contains then products
    else List.filter
           (fun p => price_parses p && passes lo hi title_contains p)
           products.
Proof.
  unfold _apply_filters, no_predicates.
  destruct (is_None lo && is_None hi && falsy_opt title_contains);
    [reflexivity|].
  change (if falsy_opt title_contains then None
          else option_map str_lower title_contains)
    with (query_of title_contains).
  rewrite filter_loop_eq. simpl.
  apply filter_bool_ext_in. intros p _. apply kept_query_of.
Qed.

Lemma apply_filters_sublist products lo hi title_contains :
  _apply_filters products lo hi title_contains `sublist_of` products.
Proof.
  rewrite apply_filters_eq.
  destruct (no_predicates lo hi title_contains);
    [reflexivity | apply filter_bool_sublist].
Qed.
End FilterFacts.

(** ** Objects and values agree *)

Section ObjectFacts.
Context `{Builtins}.

Lemma filter_loop_obj_eq query lo hi products filtered acc (h : Store) :
  filter_loop_obj query lo hi products filtered (<[filtered := acc]> h)
  = <[filtered := filter_loop query lo hi products acc]> h.
Proof.
  revert acc.
  induction products as [|p rest IH]; intros acc; simpl; [reflexivity|].
  destruct (match query with
            | Some q => truthy q && negb (contains (str_lower (title p)) q)
            | None => false
            end); [apply IH|].
  destruct (float_of_str (price p)) as [value|]; [|apply IH].
  destruct (match lo with
            | Some lo0 => (value <? lo0)%float
            | None => false
            end); [apply IH|].
  destruct (match hi with
            | Some hi0 => (hi0 <? value)%float
            | None => false
            end); [apply IH|].
  unfold append. rewrite alter_insert_eq. apply IH.
Qed.

(** On a store where [products] names the list [items], the object-level
    function returns a reference to the value-level result and writes to no
    list that existed before the call. *)
Lemma apply_filters_obj_sound (h : Store) products items lo hi title_contains :
  h !! products = Some items ->
  exists result h',
    _apply_filters_obj h products lo hi title_contains = Some (result, h')
    /\ h' !! result = Some (_apply_filters items lo hi title_contains)
    /\ forall l, is_Some (h !! l) -> h' !! l = h !! l.
Proof.
  intros Hitems. unfold _apply_filters_obj, _apply_filters. rewrite Hitems.
  destruct (is_None lo && is_None hi && falsy_opt title_contains).
  - exists products, h. auto.
  - eexists _, _. split; [reflexivity|].
    rewrite filter_loop_obj_eq. split.
    + apply lookup_insert_eq.
    + intros l Hl. apply lookup_insert_ne. intros <-.
      apply elem_of_dom in Hl. exact (is_fresh (dom h) Hl).
Qed.
End ObjectFacts.

(** ** Claims about the Filter Engine *)

Section FilterClaims.
Context `{Builtins}.


(** C7: for every record list, filtering with both [min_price] and
    [title_contains] supplied yields exactly the intersection of the result
    of filtering with [min_price] alone and the result of filtering with
    [title_contains] alone. *)
Theorem filter_both_is_intersection
    (products : list Product) (lo : float) (query : str) :
  _apply_filters products (Some lo) None (Some query)
  = list_intersection
      (_apply_filters products (Some lo) None None)
      (_apply_filters products None None (Some query)).
Proof.
  rewrite !apply_filters_eq.
  change (no_predicates (Some lo) None (Some query)) with false.
  change (no_predicates (Some lo) None None) with false.
  cbv iota.
  destruct (no_predicates None None (Some query)) eqn:Hnone.
  - (* an empty query: the title filter alone returns its input *)
    rewrite (intersection_of_filters _ (fun _ => true)).
    + apply filter_bool_ext_in. intros p _.
      unfold no_predicates in Hnone. simpl in Hnone.
      unfold passes, title_matches, passes_max.
      rewrite Hnone, !andb_true_r. reflexivity.
    + intros p Hp. tauto.
  - rewrite (intersection_of_filters _
               (fun p => price_parses p && passes None None (Some query) p)).
    + apply filter_bool_ext_in. intros p _.
      unfold passes, price_parses, passes_min, passes_max,
        title_matches.
      destruct (float_of_str (price p)) as [value|]; simpl;
        [|rewrite ?andb_false_r; reflexivity].
      destruct (negb (truthy query) || contains _ _),
        (negb (value <? lo)%float); reflexivity.
    + intros p Hp. rewrite elem_of_filter_bool. tauto.
Qed.

(** C8: for every record list, applying the Filter Engine with no predicate
    supplied returns a sequence equal to the input; on list objects, the
    very list passed in is returned and the store, hence the input, is left
    as it was. *)
Theorem filter_without_predicates_is_identity
    (h : Store) (products : positive) (items : list Product) :
  h !! products = Some items ->
  _apply_filters items None None None = items
  /\ _apply_filters_obj h products None None None = Some (products, h).
Proof.
  intros Hitems. split; [reflexivity|].
  unfold _apply_filters_obj. rewrite Hitems. reflexivity.
Qed.

(** C10: for every input list and every predicate combination, the Filter
    Engine's output is a subsequence of its input: the surviving records
    keep their relative order, every output record is a record of the
    input, and no record occurs more often in the output than in the
    input. *)
Theorem filter_output_is_subsequence
    (products : list Product) (lo hi : option float)
    (title_contains : option str) :
  let output := _apply_filters products lo hi title_contains in
  output `sublist_of` products
  /\ (forall p, p ∈ output -> p ∈ products)
  /\ (forall p, count_occ Product_eq_dec output p
                <= count_occ Product_eq_dec products p).
Proof.
  intros output.
  assert (Hsub : output `sublist_of` products)
    by apply apply_filters_sublist.
  split; [exact Hsub|]. split.
  - intros p. apply sublist_elem_of. exact Hsub.
  - intros p. apply sublist_count_occ. exact Hsub.
Qed.
End FilterClaims.


Lemma filter_without_predicates_is_identity_witness :
  let h : Store := {[ 1%positive := [record_1; record_2] ]} in
  _apply_filters [record_1; record_2] None None None = [record_1; record_2]
  /\ _apply_filters_obj h 1%positive None None None = Some (1%positive, h).
Proof.
  intros h.
  apply (filter_without_predicates_is_identity h 1%positive).
  reflexivity.
Defined.

(** ** Claims about the Field Extractor and the Page Scraper *)

Section ExtractorClaims.
Context `{Builtins}.

(** C5: for every container exposing a non-empty offscreen price string
    (the stripped text of the offscreen element, [offscreen_text] in the
    script), whatever whole/fraction sub-elements it exposes besides, the
    Field Extractor returns the price derived from the offscreen string: its
    first character as the currency symbol, and the remainder, stripped and
    with the thousands-separator commas removed, as the numeric string. The
    whole/fraction parts are never consulted. *)
Theorem offscreen_price_wins (e pc : WebElement) (c : char) (rest : str) :
  price_container e = Some pc ->
  offscreen_text pc = c :: rest ->
  _parse_price_block e = Some (remove_commas (strip rest), [c]).
Proof.
  unfold price_container, offscreen_text, _parse_price_block.
  intros -> ->. reflexivity.
Qed.

(** C2 (as amended): for every container whose price container is present
    and whose offscreen string is absent or empty: when the whole/fraction
    pair is not both present the extractor returns no price and the regex
    scan is not attempted; when both parts are present and the currency
    symbol is absent or empty, the regex scan over the container's full
    visible text is the final fallback, and when it matches, the first
    match's currency glyph and comma-stripped numeric string are returned;
    when both parts and a non-empty symbol are present, the pair's price and
    that symbol are returned. *)
Theorem regex_fallback_needs_the_pair (e pc : WebElement) :
  price_container e = Some pc ->
  offscreen_text pc = [] ->
  (whole_part pc = None \/ fraction_part pc = None ->
   _parse_price_block e = None)
  /\ (forall w f,
        whole_part pc = Some w -> fraction_part pc = Some f ->
        (symbol_text pc = [] -> _parse_price_block e = regex_price e)
        /\ (symbol_text pc <> [] ->
            _parse_price_block e
            = Some (strip (remove_commas (text w)) ++ [dot] ++ strip (text f),
                    symbol_text pc))).
Proof.
  unfold price_container, offscreen_text, whole_part, fraction_part,
    symbol_text, regex_price, _parse_price_block.
  intros -> ->. split.
  - intros [-> | ->]; [reflexivity|].
    destruct (find_element pc CLASS_NAME "a-price-whole"); reflexivity.
  - intros w f -> ->. split.
    + intros ->. rewrite andb_false_r. reflexivity.
    + intros Hsym.
      destruct (text_or_empty pc "a-price-symbol") as [|s0 sym];
        [contradiction|].
      destruct (strip (remove_commas (text w))); reflexivity.
Qed.

(** Every success of the extractor carries a non-empty currency. *)
Lemma parse_price_block_currency (e : WebElement) (price_ currency_ : str) :
  _parse_price_block e = Some (price_, currency_) -> currency_ <> [].
Proof.
  unfold _parse_price_block.
  destruct (find_element e XPATH _) as [pc|]; [|discriminate].
  destruct (text_or_empty pc "a-offscreen") as [|c rest].
  - destruct (find_element pc CLASS_NAME "a-price-whole") as [w|];
      [|discriminate].
    destruct (find_element pc CLASS_NAME "a-price-fraction") as [f|];
      [|discriminate].
    destruct (text_or_empty pc "a-price-symbol") as [|s0 sym].
    + rewrite andb_false_r.
      destruct (re_search_price (text e)) as [[g numeric]|]; [|discriminate].
      intros [= _ <-]. discriminate.
    + destruct (truthy _ && truthy _).
      * intros [= _ <-]. discriminate.
      * destruct (re_search_price (text e)) as [[g numeric]|];
          [|discriminate].
        intros [= _ <-]. discriminate.
  - intros [= _ <-]. discriminate.
Qed.

(** A record is built only from non-empty title, URL, price and currency,
    and carries the page number and index it was found at. *)
Lemma scrape_element_appended page_number index e p :
  scrape_element page_number index e = Appended p ->
  title p <> [] /\ url p <> [] /\ price p <> [] /\ currency p <> []
  /\ page p = page_number /\ position p = index.
Proof.
  unfold scrape_element.
  destruct (find_with_fallback e "h2 span" "h2") as [t|]; [|discriminate].
  destruct (find_with_fallback e _ "a.a-link-normal") as [l|];
    [|discriminate].
  destruct (get_attribute l "href") as [href|]; [|discriminate].
  destruct (strip (text t)) as [|t0 ts]; [discriminate|].
  destruct href as [|h0 hs]; [discriminate|]. simpl.
  destruct (_parse_price_block e) as [[pr cur]|] eqn:Hparse; [|discriminate].
  destruct pr as [|p0 ps]; [discriminate|]. simpl.
  intros [= <-]. simpl.
  apply parse_price_block_currency in Hparse.
  repeat split; try discriminate. exact Hparse.
Qed.

(** The loop over the containers keeps any property that holds of the
    records it starts with and of the records one container yields. *)
Lemma scrape_elements_Forall (P : Product -> Prop) page_number :
  (forall index e p, scrape_element page_number index e = Appended p -> P p) ->
  forall elements index products skipped,
    Forall P products ->
    Forall P (fst (scrape_elements page_number index elements products skipped)).
Proof.
  intros Hstep elements.
  induction elements as [|e rest IH]; intros index products skipped Hall;
    simpl; [exact Hall|].
  destruct (scrape_element page_number index e) as [p| |] eqn:He;
    apply IH; try exact Hall.
  apply Forall_app. split; [exact Hall|].
  constructor; [|constructor]. exact (Hstep _ _ _ He).
Qed.

(** C9: every record emitted by the Page Scraper has a non-empty currency
    string. *)
Theorem scraped_currency_nonempty (driver : WebDriver) (page_number : Z)
    (p : Product) :
  p ∈ _scrape_products_on_current_page driver page_number ->
  currency p <> [].
Proof.
  unfold _scrape_products_on_current_page, scrape_page.
  revert p. apply Forall_forall.
  apply scrape_elements_Forall; [|constructor].
  intros index e p He. apply scrape_element_appended in He. tauto.
Qed.

(** A container without price sources makes the extractor return nothing. *)
Lemma lacks_price_sources_no_price (e : WebElement) :
  lacks_price_sources e = true -> _parse_price_block e = None.
Proof.
  unfold lacks_price_sources, price_container, offscreen_text, whole_part,
    fraction_part, _parse_price_block.
  destruct (find_element e XPATH _) as [pc|]; [|reflexivity].
  destruct (text_or_empty pc "a-offscreen"); [|discriminate]. simpl.
  destruct (find_element pc CLASS_NAME "a-price-whole"),
    (find_element pc CLASS_NAME "a-price-fraction");
    simpl; try reflexivity; discriminate.
Qed.

(** C1 (as amended): for every page scrape, a product container whose title
    and URL extract successfully but which lacks all price sources yields no
    record, and the page's skip counter is left as it was for that
    container: the loop goes on to the next container with the same records
    and the same count. *)
Theorem unpriced_container_is_not_counted
    (page_number index : Z) (e : WebElement) (rest : list WebElement)
    (products : list Product) (skipped : Z) (title_ href : str) :
  title_and_url e = Some (title_, href) ->
  lacks_price_sources e = true ->
  scrape_element page_number index e = Continued
  /\ scrape_elements page_number index (e :: rest) products skipped
     = scrape_elements page_number (index + 1) rest products skipped.
Proof.
  intros Htu Hlacks.
  assert (He : scrape_element page_number index e = Continued).
  { unfold scrape_element. unfold title_and_url in Htu.
    destruct (find_with_fallback e "h2 span" "h2") as [t|]; [|discriminate].
    destruct (find_with_fallback e _ "a.a-link-normal") as [l|];
      [|discriminate].
    destruct (get_attribute l "href") as [h0|]; [|reflexivity].
    rewrite (lacks_price_sources_no_price e Hlacks).
    destruct (negb _ || negb _); reflexivity. }
  split; [exact He|]. simpl. rewrite He. reflexivity.
Qed.
End ExtractorClaims.

(** ** Claims about the Aggregation Loop *)

Section LoopClaims.
Context `{Builtins}.
Variable max_pages : Z.
Variable max_products : option Z.
Variables min_price max_price : option float.
Variable title_contains : option str.

Local Abbreviation iteration_ :=
  (iteration max_pages max_products min_price max_price title_contains).
Local Abbreviation extended := (extended min_price max_price title_contains).
Local Abbreviation while_true_ :=
  (while_true max_pages max_products min_price max_price title_contains).

(** A pass that does not stop moves one page further, below the bound. *)
Lemma iteration_again (st st' : LoopState) :
  iteration_ st = Again st' ->
  current_page st' = (current_page st + 1)%Z
  /\ (current_page st' <= max_pages)%Z
  /\ cycles st' = S (cycles st).
Proof.
  unfold iteration.
  assert (Hrest :
    (if (current_page st >=? max_pages)%Z
     then Break (extended st) (S (cycles st))
     else
       let '(has_next, driver_) := _go_to_next_page (driver st) in
       if negb has_next then Break (extended st) (S (cycles st))
       else Again {| driver := driver_;
                     all_products := extended st;
                     current_page := (current_page st + 1)%Z;
                     cycles := S (cycles st) |}) = Again st' ->
    current_page st' = (current_page st + 1)%Z
    /\ (current_page st' <= max_pages)%Z
    /\ cycles st' = S (cycles st)).
  { destruct (current_page st >=? max_pages)%Z eqn:Hpage; [discriminate|].
    destruct (_go_to_next_page (driver st)) as [has_next driver_].
    destruct (negb has_next); [discriminate|].
    intros [= <-]. simpl. lia. }
  fold (extended st).
  destruct max_products as [limit|]; [|exact Hrest].
  destruct (Z.of_nat (length (extended st)) >=? limit)%Z;
    [discriminate | exact Hrest].
Qed.

(** A pass that stops has scraped once more, and respects a non-negative
    product limit. *)
Lemma iteration_break (st : LoopState) result scrapes :
  iteration_ st = Break result scrapes ->
  scrapes = S (cycles st)
  /\ forall limit, max_products = Some limit -> (0 <= limit)%Z ->
       (Z.of_nat (length result) <= limit)%Z.
Proof.
  unfold iteration. fold (extended st).
  assert (Hrest : forall r s,
    (if (current_page st >=? max_pages)%Z
     then Break (extended st) (S (cycles st))
     else
       let '(has_next, driver_) := _go_to_next_page (driver st) in
       if negb has_next then Break (extended st) (S (cycles st))
       else Again {| driver := driver_;
                     all_products := extended st;
                     current_page := (current_page st + 1)%Z;
                     cycles := S (cycles st) |}) = Break r s ->
    r = extended st /\ s = S (cycles st)).
  { intros r s.
    destruct (current_page st >=? max_pages)%Z;
      [intros [= <- <-]; auto|].
    destruct (_go_to_next_page (driver st)) as [has_next driver_].
    destruct (negb has_next); [intros [= <- <-]; auto | discriminate]. }
  destruct max_products as [limit|].
  - destruct (Z.of_nat (length (extended st)) >=? limit)%Z eqn:Hlen.
    + intros [= <- <-]. split; [reflexivity|].
      intros limit' [= <-] Hpos. unfold slice_to.
      destruct (0 <=? limit)%Z eqn:Hsign; [|lia].
      rewrite length_take. lia.
    + intros Hbreak. apply Hrest in Hbreak as [-> ->].
      split; [reflexivity|]. intros limit' [= <-] _. lia.
  - intros Hbreak. apply Hrest in Hbreak as [_ ->].
    split; [reflexivity|]. intros limit' [=].
Qed.

(** From a state with fewer than [S n] pages left below the bound, the loop
    stops within [S n] passes. *)
Lemma while_true_total (n : nat) :
  forall st,
    (max_pages - current_page st < Z.of_nat (S n))%Z ->
    exists result scrapes,
      (forall fuel, S n <= fuel -> while_true_ fuel st = Some (result, scrapes))
      /\ cycles st < scrapes <= cycles st + S n
      /\ forall limit, max_products = Some limit -> (0 <= limit)%Z ->
           (Z.of_nat (length result) <= limit)%Z.
Proof.
  induction n as [|n IH]; intros st Hleft.
  - destruct (iteration_ st) as [result scrapes|st'] eqn:Hit.
    + destruct (iteration_break _ _ _ Hit) as [-> Hlimit].
      exists result, (S (cycles st)). split; [|split; [lia | exact Hlimit]].
      intros [|fuel] Hfuel; [lia|]. simpl. rewrite Hit. reflexivity.
    + apply iteration_again in Hit. lia.
  - destruct (iteration_ st) as [result scrapes|st'] eqn:Hit.
    + destruct (iteration_break _ _ _ Hit) as [-> Hlimit].
      exists result, (S (cycles st)). split; [|split; [lia | exact Hlimit]].
      intros [|fuel] Hfuel; [lia|]. simpl. rewrite Hit. reflexivity.
    + destruct (iteration_again _ _ Hit) as (Hpage & _ & Hcycles).
      destruct (IH st') as (result & scrapes & Hrun & Hbound & Hlimit);
        [lia|].
      exists result, scrapes. split; [|split; [lia | exact Hlimit]].
      intros [|fuel] Hfuel; [lia|]. simpl. rewrite Hit. apply Hrun. lia.
Qed.
End LoopClaims.

Section AggregationClaims.
Context `{Builtins}.

(** C3: for every [max_pages = N] with [N >= 1], the Aggregation Loop
    terminates after at most [N] page-scrape cycles, whatever the
    Pagination Controller reports: every pass of the loop either stops or
    moves the page counter up by exactly one, to a value no greater than
    [max_pages]. *)
Theorem aggregation_stops_within_max_pages
    (web : str -> nat -> Document) (url : str) (N : Z)
    (max_products : option Z) (lo hi : option float)
    (title_contains : option str) :
  (1 <= N)%Z ->
  (exists result scrapes,
     (forall fuel, Z.to_nat N <= fuel ->
        scrape_amazon_prices fuel web url N max_products lo hi title_contains
        = Some (result, scrapes))
     /\ 1 <= scrapes <= Z.to_nat N)
  /\ forall st,
       match iteration N max_products lo hi title_contains st with
       | Break _ scrapes => scrapes = S (cycles st)
       | Again st' =>
           current_page st' = (current_page st + 1)%Z
           /\ (current_page st' <= N)%Z
           /\ cycles st' = S (cycles st)
       end.
Proof.
  intros HN. split.
  - unfold scrape_amazon_prices.
    destruct (while_true_total N max_products lo hi title_contains
                (Z.to_nat N - 1)
                (initial {| timeline := web url; now := 0 |}))
      as (result & scrapes & Hrun & Hbound & _).
    { simpl. lia. }
    exists result, scrapes. simpl in Hbound. split; [|lia].
    intros fuel Hfuel. apply Hrun. lia.
  - intros st.
    destruct (iteration N max_products lo hi title_contains st)
      as [result scrapes|st'] eqn:Hit.
    + apply iteration_break in Hit. tauto.
    + apply iteration_again in Hit. exact Hit.
Qed.

(** C4 (as amended): when a non-negative [max_products] is supplied and the
    accumulated record count, after appending a page's filtered records,
    reaches or exceeds [max_products], the Aggregation Loop truncates the
    accumulator to exactly its first [max_products] records and stops;
    consequently the returned list never contains more than [max_products]
    records. *)
Theorem max_products_truncates
    (web : str -> nat -> Document) (url : str) (max_pages limit : Z)
    (lo hi : option float) (title_contains : option str) :
  (0 <= limit)%Z ->
  (forall st,
     let accumulated := extended lo hi title_contains st in
     (limit <= Z.of_nat (length accumulated))%Z ->
     iteration max_pages (Some limit) lo hi title_contains st
     = Break (take (Z.to_nat limit) accumulated) (S (cycles st))
     /\ Z.of_nat (length (take (Z.to_nat limit) accumulated)) = limit)
  /\ exists result scrapes,
       (forall fuel, Z.to_nat (Z.max 1 max_pages) <= fuel ->
          scrape_amazon_prices fuel web url max_pages (Some limit) lo hi
            title_contains
          = Some (result, scrapes))
       /\ (Z.of_nat (length result) <= limit)%Z.
Proof.
  intros Hlimit. split.
  - intros st accumulated Hlen. unfold iteration.
    fold (extended lo hi title_contains st). fold accumulated.
    destruct (Z.of_nat (length accumulated) >=? limit)%Z eqn:Hge; [|lia].
    unfold slice_to. destruct (0 <=? limit)%Z eqn:Hsign; [|lia].
    split; [reflexivity|]. rewrite length_take. lia.
  - unfold scrape_amazon_prices.
    destruct (while_true_total max_pages (Some limit) lo hi title_contains
                (Z.to_nat (Z.max 1 max_pages) - 1)
                (initial {| timeline := web url; now := 0 |}))
      as (result & scrapes & Hrun & _ & Hle).
    { simpl. lia. }
    exists result, scrapes. split; [|apply (Hle limit); [reflexivity | lia]].
    intros fuel Hfuel. apply Hrun. lia.
Qed.
End AggregationClaims.

(** ** The claims at the sample pages *)

(** C1 fails as stated: the third sample listing has a title and a URL and
    no price source, yet the page's skip counter stays at 0 instead of
    going to 1. *)
Lemma unpriced_listing_leaves_counter_unchanged :
  title_and_url sample_3
  = Some (u "Sample Product 3", u "https://www.example.com/product-3")
  /\ lacks_price_sources sample_3 = true
  /\ scrape_page {| timeline := sample_web sample_url; now := 0 |} 1
     = ([record_1; record_2], 0%Z)
  /\ snd (scrape_page {| timeline := sample_web sample_url; now := 0 |} 1)
     <> (0 + 1)%Z.
Proof.
  split; [reflexivity|]. split; [reflexivity|].
  split; [vm_compute; reflexivity|]. vm_compute. discriminate.
Qed.

Lemma unpriced_container_is_not_counted_witness :
  scrape_element 1 3 sample_3 = Continued
  /\ scrape_elements 1 3 [sample_3] [record_1; record_2] 0
     = scrape_elements 1 (3 + 1) [] [record_1; record_2] 0.
Proof.
  apply (unpriced_container_is_not_counted 1 3 sample_3 []
           [record_1; record_2] 0
           (u "Sample Product 3") (u "https://www.example.com/product-3"));
    reflexivity.
Defined.

(** C2 fails as stated: the price block of [text_only_listing] is present,
    has no offscreen string and no whole/fraction pair, the pattern matches
    the listing's visible text, and still no price is returned. *)
Lemma regex_fallback_skipped_without_pair :
  price_container text_only_listing = Some (leaf "$19.99")
  /\ offscreen_text (leaf "$19.99") = []
  /\ whole_part (leaf "$19.99") = None
  /\ fraction_part (leaf "$19.99") = None
  /\ re_search_price (text text_only_listing) = Some (dollar, u "19.99")
  /\ _parse_price_block text_only_listing = None.
Proof. vm_compute. repeat split; reflexivity. Qed.

Lemma regex_fallback_needs_the_pair_witness :
  _parse_price_block pair_only_listing = Some (u "1019.99", u "$").
Proof.
  refine (proj1 (proj2 (regex_fallback_needs_the_pair pair_only_listing
                          (Element (u "19.99") []
                             [ (CLASS_NAME, "a-price-whole", [leaf "19"]);
                               (CLASS_NAME, "a-price-fraction", [leaf "99"]) ])
                          _ _)
                   (leaf "19") (leaf "99") _ _) _);
    reflexivity.
Defined.

Lemma aggregation_stops_within_max_pages_witness :
  (1 <= 3)%Z
  /\ exists result scrapes,
       (forall fuel, Z.to_nat 3 <= fuel ->
          scrape_amazon_prices fuel endless_web sample_url 3 None None None None
          = Some (result, scrapes))
       /\ 1 <= scrapes <= Z.to_nat 3.
Proof.
  split; [lia|].
  apply (aggregation_stops_within_max_pages endless_web sample_url 3
           None None None None).
  lia.
Defined.

(** C4 fails as stated: with [max_products = -1] the two records of the
    sample page are cut to one record, which is more than [-1]. *)
Lemma negative_max_products_keeps_records :
  scrape_amazon_prices 1 sample_web sample_url 1 (Some (-1)%Z) None None None
  = Some ([record_1], 1)
  /\ (Z.of_nat (length [record_1]) > -1)%Z.
Proof. vm_compute. split; reflexivity. Qed.

Lemma max_products_truncates_witness :
  (0 <= 1)%Z
  /\ exists result scrapes,
       (forall fuel, Z.to_nat (Z.max 1 1) <= fuel ->
          scrape_amazon_prices fuel sample_web sample_url 1 (Some 1%Z)
            None None None
          = Some (result, scrapes))
       /\ (Z.of_nat (length result) <= 1)%Z.
Proof.
  split; [lia|].
  apply (max_products_truncates sample_web sample_url 1 1 None None None).
  lia.
Defined.

Lemma offscreen_price_wins_witness :
  _parse_price_block two_price_listing = Some (u "1019.99", u "$").
Proof.
  refine (offscreen_price_wins two_price_listing
            (full_block "$1,019.99" "$" "18" "50") dollar (u "1,019.99") _ _);
    reflexivity.
Defined.

Lemma scraped_currency_nonempty_witness :
  record_1 ∈ _scrape_products_on_current_page
               {| timeline := sample_web sample_url; now := 0 |} 1
  /\ currency record_1 <> [].
Proof.
  assert (Hin : record_1 ∈ _scrape_products_on_current_page
                  {| timeline := sample_web sample_url; now := 0 |} 1).
  { change (record_1 ∈ [record_1; record_2]). left. }
  split; [exact Hin|].
  exact (scraped_currency_nonempty _ _ _ Hin).
Defined.

(** * Further properties *)

(** ** The Filter Engine: composition *)

Section FilterAlgebra.
Context `{Builtins}.

Lemma filter_bool_idem {A : Type} (f : A -> bool) (l : list A) :
  List.filter f (List.filter f l) = List.filter f l.
Proof.
  induction l as [|x l IH]; simpl; [reflexivity|].
  destruct (f x) eqn:Hf; simpl; rewrite ?Hf, IH; reflexivity.
Qed.

Lemma filter_bool_filter {A : Type} (f g : A -> bool) (l : list A) :
  List.filter f (List.filter g l) = List.filter (fun x => g x && f x) l.
Proof.
  induction l as [|x l IH]; simpl; [reflexivity|].
  destruct (g x); simpl; [destruct (f x)|]; rewrite IH; reflexivity.
Qed.

(** X1: Filtering page by page and filtering the concatenation are the same:
    the filter looks at one record at a time. *)
Theorem filter_distributes_over_append
    (first second : list Product) (lo hi : option float)
    (title_contains : option str) :
  _apply_filters (first ++ second) lo hi title_contains
  = _apply_filters first lo hi title_contains
    ++ _apply_filters second lo hi title_contains.
Proof.
  rewrite !apply_filters_eq.
  destruct (no_predicates lo hi title_contains); [reflexivity|].
  apply List.filter_app.
Qed.

(** X2: Filtering a filtered list again with the same predicates changes
    nothing. *)
Theorem filter_is_idempotent
    (products : list Product) (lo hi : option float)
    (title_contains : option str) :
  _apply_filters (_apply_filters products lo hi title_contains)
    lo hi title_contains
  = _apply_filters products lo hi title_contains.
Proof.
  rewrite !apply_filters_eq.
  destruct (no_predicates lo hi title_contains); [reflexivity|].
  apply filter_bool_idem.
Qed.

(** X3: The price bounds and the title query can be applied one after the
    other, in either order, with the result of applying them together. *)
Theorem filter_in_two_steps
    (products : list Product) (lo hi : option float)
    (title_contains : option str) :
  _apply_filters (_apply_filters products lo hi None) None None title_contains
  = _apply_filters products lo hi title_contains
  /\ _apply_filters (_apply_filters products None None title_contains)
       lo hi None
     = _apply_filters products lo hi title_contains.
Proof.
  rewrite !apply_filters_eq.
  assert (Hpoint : forall p,
    price_parses p && passes lo hi title_contains p
    = (price_parses p && passes lo hi None p)
      && (price_parses p && passes None None title_contains p)).
  { intros p. unfold passes, title_matches, passes_min, passes_max,
      price_parses.
    destruct title_contains as [q|]; simpl;
      destruct (float_of_str (price p)) as [value|]; simpl;
      rewrite ?andb_false_r; try reflexivity;
      destruct lo as [lo|], hi as [hi|]; simpl;
      repeat match goal with
             | |- context [PrimFloat.ltb ?a ?b] =>
                 destruct (PrimFloat.ltb a b); simpl
             | |- context [contains ?a ?b] => destruct (contains a b); simpl
             | |- context [truthy ?a] => destruct (truthy a); simpl
             end; reflexivity. }
  assert (Htitle : no_predicates None None title_contains = true ->
                   forall p, passes lo hi title_contains p
                             = passes lo hi None p).
  { unfold no_predicates, passes, title_matches, falsy_opt. simpl.
    intros Hq p. destruct title_contains as [q|]; [|reflexivity].
    rewrite Hq. reflexivity. }
  assert (Hbounds : no_predicates lo hi None = true ->
                    forall p, passes lo hi title_contains p
                              = passes None None title_contains p).
  { unfold no_predicates. destruct lo, hi; try discriminate. reflexivity. }
  assert (Hboth : no_predicates lo hi title_contains
                  = no_predicates lo hi None
                    && no_predicates None None title_contains).
  { unfold no_predicates. simpl.
    destruct (is_None lo), (is_None hi), (falsy_opt title_contains);
      reflexivity. }
  rewrite Hboth.
  destruct (no_predicates lo hi None) eqn:Hb,
    (no_predicates None None title_contains) eqn:Ht; simpl;
    rewrite ?filter_bool_filter; split;
    try reflexivity;
    apply filter_bool_ext_in; intros p _;
    rewrite ?(Htitle eq_refl), ?(Hbounds eq_refl), ?Hpoint;
    try reflexivity;
    destruct (price_parses p && passes lo hi None p),
      (price_parses p && passes None None title_contains p); reflexivity.
Qed.

(** X4: Two non-empty queries with the same lower-case form select the same
    records: the query's letter case does not matter. *)
Theorem filter_ignores_query_case
    (products : list Product) (lo hi : option float) (q1 q2 : str) :
  q1 <> [] -> q2 <> [] -> str_lower q1 = str_lower q2 ->
  _apply_filters products lo hi (Some q1)
  = _apply_filters products lo hi (Some q2).
Proof.
  intros H1 H2 Hlow. rewrite !apply_filters_eq.
  unfold no_predicates, passes, title_matches, falsy_opt.
  destruct q1 as [|c1 q1]; [contradiction|].
  destruct q2 as [|c2 q2]; [contradiction|].
  simpl. rewrite !andb_false_r, Hlow. reflexivity.
Qed.

(** X5: On list objects: with a predicate supplied the result is a new list,
    distinct from every list of the store, and no list that existed is
    written; with none supplied the result is the input list itself, so a
    later write to one is a write to the other. *)
Theorem filter_result_aliases_input_only_without_predicates
    (h : Store) (products : positive) (items : list Product)
    (lo hi : option float) (title_contains : option str) :
  h !! products = Some items ->
  exists result h',
    _apply_filters_obj h products lo hi title_contains = Some (result, h')
    /\ h' !! result = Some (_apply_filters items lo hi title_contains)
    /\ h' !! products = Some items
    /\ (forall l, is_Some (h !! l) -> h' !! l = h !! l)
    /\ (if no_predicates lo hi title_contains
        then result = products /\ h' = h
        else h !! result = None /\ result <> products).
Proof.
  intros Hitems. unfold _apply_filters_obj, _apply_filters, no_predicates.
  rewrite Hitems.
  destruct (is_None lo && is_None hi && falsy_opt title_contains).
  - exists products, h. auto 6.
  - assert (Hfresh : h !! fresh (dom h) = None).
    { apply not_elem_of_dom. apply is_fresh. }
    assert (Hne : fresh (dom h) <> products).
    { intros Heq. rewrite Heq in Hfresh. congruence. }
    eexists _, _. split; [reflexivity|].
    rewrite filter_loop_obj_eq.
    split; [apply lookup_insert_eq|].
    split; [rewrite lookup_insert_ne; [exact Hitems | exact Hne]|].
    split; [|split; [exact Hfresh | exact Hne]].
    intros l [x Hl]. apply lookup_insert_ne. intros <-. congruence.
Qed.
End FilterAlgebra.

Lemma filter_ignores_query_case_witness :
  _apply_filters [record_1; record_2; record_us] None None
    (Some (u "SAMPLE Product"))
  = _apply_filters [record_1; record_2; record_us] None None
      (Some (u "sample product")).
Proof.
  apply filter_ignores_query_case; [discriminate | discriminate | reflexivity].
Defined.

Lemma filter_result_aliases_input_only_without_predicates_witness :
  let h : Store := {[ 1%positive := [record_1; record_2] ]} in
  exists result h',
    _apply_filters_obj h 1%positive (Some 20%float) None None
    = Some (result, h')
    /\ h' !! result
       = Some (_apply_filters [record_1; record_2] (Some 20%float) None None)
    /\ h' !! 1%positive = Some [record_1; record_2]
    /\ (forall l, is_Some (h !! l) -> h' !! l = h !! l)
    /\ (h !! result = None /\ result <> 1%positive).
Proof.
  intros h.
  apply (filter_result_aliases_input_only_without_predicates h 1%positive
           [record_1; record_2] (Some 20%float) None None).
  reflexivity.
Defined.

(** ** The price pattern *)

Section PatternFacts.
Context `{Builtins}.

Lemma match_fraction_shape (t m : str) :
  match_fraction t = Some m ->
  exists d1 d2 after,
    m = [dot; d1; d2] /\ t = m ++ after
    /\ isdecimal d1 = true /\ isdecimal d2 = true.
Proof.
  unfold match_fraction.
  destruct t as [|p [|d1 [|d2 after]]]; try discriminate.
  destruct (N.eqb p dot) eqn:Hp; [|discriminate].
  destruct (isdecimal d1) eqn:H1; [|discriminate].
  destruct (isdecimal d2) eqn:H2; [|discriminate].
  simpl. intros [= <-]. apply N.eqb_eq in Hp. subst p.
  exists d1, d2, after. auto.
Qed.

Lemma match_group_tail_shape (t m : str) :
  match_group_tail t = Some m ->
  exists body d1 d2 after,
    m = body ++ [dot; d1; d2] /\ t = m ++ after
    /\ Forall (fun c => digit_or_comma c = true) body
    /\ isdecimal d1 = true /\ isdecimal d2 = true.
Proof.
  revert m. induction t as [|c rest IH]; intros m Hm.
  - simpl in Hm. discriminate.
  - cbn [match_group_tail] in Hm.
    destruct (if isdecimal c || N.eqb c comma
              then option_map (cons c) (match_group_tail rest)
              else None) as [m'|] eqn:Hlonger.
    + injection Hm as <-.
      destruct (isdecimal c || N.eqb c comma) eqn:Hc; [|discriminate].
      destruct (match_group_tail rest) as [m0|]; [|discriminate].
      injection Hlonger as <-.
      destruct (IH m0 eq_refl) as (body & d1 & d2 & after & -> & -> & Hb & H1 & H2).
      exists (c :: body), d1, d2, after. repeat split; auto.
    + apply match_fraction_shape in Hm
        as (d1 & d2 & after & -> & Ht & H1 & H2).
      exists [], d1, d2, after. repeat split; auto.
Qed.

(** X6: A match consists of one of the three glyphs and a number that starts
    with a digit, goes on with digits and commas and ends with a dot and
    two digits; glyph and number stand next to each other in the text, at
    most one white-space character apart. *)
Theorem price_pattern_match_shape (t : str) (g : char) (num : str) :
  re_search_price t = Some (g, num) ->
  is_glyph g = true
  /\ (exists d body d1 d2,
        num = d :: body ++ [dot; d1; d2]
        /\ isdecimal d = true
        /\ Forall (fun c => digit_or_comma c = true) body
        /\ isdecimal d1 = true /\ isdecimal d2 = true)
  /\ exists before gap after,
       t = before ++ g :: gap ++ num ++ after
       /\ (gap = [] \/ exists sp, gap = [sp] /\ isspace sp = true).
Proof.
  assert (Hnumber : forall r n,
    match_number r = Some n ->
    (exists d body d1 d2,
        n = d :: body ++ [dot; d1; d2]
        /\ isdecimal d = true
        /\ Forall (fun c => digit_or_comma c = true) body
        /\ isdecimal d1 = true /\ isdecimal d2 = true)
    /\ exists after, r = n ++ after).
  { intros r n. unfold match_number. destruct r as [|d rest]; [discriminate|].
    destruct (isdecimal d) eqn:Hd; [|discriminate].
    destruct (match_group_tail rest) as [m|] eqn:Hm; [|discriminate].
    intros [= <-].
    apply match_group_tail_shape in Hm
      as (body & d1 & d2 & after & -> & -> & Hb & H1 & H2).
    split; [exists d, body, d1, d2; auto | exists after; reflexivity]. }
  induction t as [|c rest IH]; [discriminate|].
  cbn [re_search_price].
  destruct (match_here (c :: rest)) as [[g' num']|] eqn:Hhere.
  - intros [= -> ->]. unfold match_here in Hhere.
    destruct (is_glyph c) eqn:Hg; [|discriminate].
    destruct (match rest with
              | [] => None
              | sp :: rest' => if isspace sp then match_number rest' else None
              end) as [n|] eqn:Hspace.
    + injection Hhere as <- <-. split; [exact Hg|].
      destruct rest as [|sp rest']; [discriminate|].
      destruct (isspace sp) eqn:Hsp; [|discriminate].
      apply Hnumber in Hspace as [Hshape [after ->]].
      split; [exact Hshape|].
      exists [], [sp], after. split; [reflexivity|]. right. eauto.
    + destruct (match_number rest) as [n|] eqn:Hn; [|discriminate].
      injection Hhere as <- <-. split; [exact Hg|].
      apply Hnumber in Hn as [Hshape [after ->]].
      split; [exact Hshape|].
      exists [], [], after. split; [reflexivity|]. left. reflexivity.
  - intros Hrest. destruct (IH Hrest) as (Hg & Hshape & before & gap & after & -> & Hgap).
    split; [exact Hg|]. split; [exact Hshape|].
    exists (c :: before), gap, after. split; [reflexivity | exact Hgap].
Qed.

(** X7: A text without any of the three glyphs has no match. *)
Theorem price_pattern_needs_a_glyph (t : str) :
  Forall (fun c => is_glyph c = false) t -> re_search_price t = None.
Proof.
  induction 1 as [|c rest Hc _ IH]; [reflexivity|].
  cbn [re_search_price]. unfold match_here. rewrite Hc. exact IH.
Qed.
End PatternFacts.

Lemma price_pattern_match_shape_witness :
  is_glyph dollar = true
  /\ (exists d body d1 d2,
        u "1,019.99" = d :: body ++ [dot; d1; d2]
        /\ isdecimal d = true
        /\ Forall (fun c => digit_or_comma c = true) body
        /\ isdecimal d1 = true /\ isdecimal d2 = true)
  /\ exists before gap after,
       text pair_only_listing = before ++ dollar :: gap ++ u "1,019.99" ++ after
       /\ (gap = [] \/ exists sp, gap = [sp] /\ isspace sp = true).
Proof.
  apply (price_pattern_match_shape (text pair_only_listing) dollar
           (u "1,019.99")).
  reflexivity.
Defined.

Lemma price_pattern_needs_a_glyph_witness :
  re_search_price (text sample_3) = None.
Proof.
  apply price_pattern_needs_a_glyph.
  repeat (constructor; [reflexivity|]). constructor.
Defined.

(** ** The Field Extractor: when there is no price, and commas *)

Section ExtractorFacts.
Context `{Builtins}.

Lemma elem_of_lstrip_by space (s : str) (c : char) :
  c ∈ lstrip_by space s -> c ∈ s.
Proof.
  induction s as [|x s IH]; simpl; [auto|].
  destruct (space x); [|auto]. intros Hc. right. auto.
Qed.

Lemma elem_of_strip (s : str) (c : char) : c ∈ strip s -> c ∈ s.
Proof.
  unfold strip, strip_by. rewrite list_elem_of_In, <- in_rev.
  rewrite <- list_elem_of_In. intros Hc. apply elem_of_lstrip_by in Hc.
  rewrite list_elem_of_In, <- in_rev, <- list_elem_of_In in Hc.
  apply elem_of_lstrip_by in Hc. exact Hc.
Qed.

Lemma remove_commas_no_comma (s : str) : comma ∉ remove_commas s.
Proof.
  unfold remove_commas. rewrite elem_of_filter_bool.
  intros [_ Hc]. rewrite N.eqb_refl in Hc. discriminate.
Qed.

(** X8: The extractor finds no price exactly when the price container is
    missing, or the offscreen string is empty and either one part of the
    whole/fraction pair is missing or the symbol is empty and the pattern
    does not match the container's text. In particular a missing price
    container or a missing part ends the search whatever the text shows. *)
Theorem price_undetectable_iff (e : WebElement) :
  _parse_price_block e = None
  <-> match price_container e with
      | None => True
      | Some pc =>
          offscreen_text pc = []
          /\ (whole_part pc = None
              \/ fraction_part pc = None
              \/ (symbol_text pc = [] /\ re_search_price (text e) = None))
      end.
Proof.
  unfold _parse_price_block, price_container, offscreen_text, whole_part,
    fraction_part, symbol_text.
  destruct (find_element e XPATH _) as [pc|]; [|tauto].
  destruct (text_or_empty pc "a-offscreen") as [|c rest].
  - destruct (find_element pc CLASS_NAME "a-price-whole") as [w|];
      [|tauto].
    destruct (find_element pc CLASS_NAME "a-price-fraction") as [f|];
      [|tauto].
    destruct (text_or_empty pc "a-price-symbol") as [|s0 sym].
    + rewrite andb_false_r.
      destruct (re_search_price (text e)) as [[g numeric]|].
      * split; [discriminate|].
        intros [_ [Hw | [Hf | [_ Hre]]]]; discriminate.
      * tauto.
    + replace (truthy (strip (remove_commas (text w)) ++ [dot] ++ strip (text f)))
        with true by (destruct (strip (remove_commas (text w))); reflexivity).
      simpl. split; [discriminate|].
      intros [_ [Hw | [Hf | [Hs _]]]]; discriminate.
  - split; [discriminate|]. intros [Hoff _]. discriminate.
Qed.

(** X9: A returned price contains a comma only when it was built from the
    whole/fraction pair and the fraction's text contains one: commas are
    removed from the offscreen string, from the whole part and from a
    pattern match, but not from the fraction. *)
Theorem price_comma_only_from_fraction
    (e : WebElement) (price_ currency_ : str) :
  _parse_price_block e = Some (price_, currency_) ->
  comma ∈ price_ ->
  exists pc f,
    price_container e = Some pc
    /\ offscreen_text pc = []
    /\ fraction_part pc = Some f
    /\ symbol_text pc = currency_
    /\ comma ∈ text f.
Proof.
  unfold _parse_price_block, price_container, offscreen_text, whole_part,
    fraction_part, symbol_text.
  destruct (find_element e XPATH _) as [pc|]; [|discriminate].
  destruct (text_or_empty pc "a-offscreen") as [|c rest] eqn:Hoff.
  - destruct (find_element pc CLASS_NAME "a-price-whole") as [w|];
      [|discriminate].
    destruct (find_element pc CLASS_NAME "a-price-fraction") as [f|] eqn:Hf;
      [|discriminate].
    destruct (truthy _ && truthy (text_or_empty pc "a-price-symbol")).
    + intros [= <- <-] Hcomma.
      exists pc, f.
      split; [reflexivity|]. split; [exact Hoff|]. split; [exact Hf|].
      split; [reflexivity|].
      apply elem_of_app in Hcomma as [Hwhole | Hrest].
      * apply elem_of_strip in Hwhole.
        exfalso. exact (remove_commas_no_comma _ Hwhole).
      * apply elem_of_cons in Hrest as [Hdot | Hfrac]; [discriminate|].
        apply elem_of_strip. exact Hfrac.
    + destruct (re_search_price (text e)) as [[g numeric]|]; [|discriminate].
      intros [= <- <-] Hcomma.
      exfalso. exact (remove_commas_no_comma _ Hcomma).
  - intros [= <- <-] Hcomma.
    exfalso. exact (remove_commas_no_comma _ Hcomma).
Qed.
End ExtractorFacts.

Lemma price_comma_only_from_fraction_witness :
  _parse_price_block comma_fraction_listing = Some (u "1019.9,9", u "$")
  /\ exists pc f,
       price_container comma_fraction_listing = Some pc
       /\ offscreen_text pc = []
       /\ fraction_part pc = Some f
       /\ symbol_text pc = u "$"
       /\ comma ∈ text f.
Proof.
  split; [reflexivity|].
  apply (price_comma_only_from_fraction comma_fraction_listing
           (u "1019.9,9") (u "$")); [reflexivity|].
  do 6 right. left.
Defined.

(** ** The Page Scraper: what each record says about its container *)

Section PageFacts.
Context `{Builtins}.

(** The counter goes up exactly for the containers without a heading or
    without a link. *)
Lemma scrape_element_excepted page_number index e :
  scrape_element page_number index e = Excepted
  <-> missing_heading_or_link e = true.
Proof.
  unfold scrape_element, missing_heading_or_link.
  destruct (find_with_fallback e "h2 span" "h2") as [t|]; simpl;
    [|tauto].
  destruct (find_with_fallback e _ "a.a-link-normal") as [l|]; simpl;
    [|tauto].
  split; [|discriminate].
  destruct (get_attribute l "href") as [href|]; [|discriminate].
  destruct (negb _ || negb _); [discriminate|].
  destruct (_parse_price_block e) as [[pr cur]|]; [|discriminate].
  destruct (negb (truthy pr)); discriminate.
Qed.

(** The page loop in closed form. *)
Lemma scrape_elements_eq page_number elements :
  forall index products skipped,
    scrape_elements page_number index elements products skipped
    = (products ++ records_from page_number index elements,
       (skipped
        + Z.of_nat (length (List.filter missing_heading_or_link elements)))%Z).
Proof.
  induction elements as [|e rest IH]; intros index products skipped; simpl.
  - rewrite app_nil_r, Z.add_0_r. reflexivity.
  - destruct (scrape_element page_number index e) as [p| |] eqn:He;
      rewrite IH.
    + assert (Hm : missing_heading_or_link e = false).
      { destruct (missing_heading_or_link e) eqn:Hm; [|reflexivity].
        apply (scrape_element_excepted page_number index) in Hm. congruence. }
      rewrite Hm, <- app_assoc. reflexivity.
    + assert (Hm : missing_heading_or_link e = false).
      { destruct (missing_heading_or_link e) eqn:Hm; [|reflexivity].
        apply (scrape_element_excepted page_number index) in Hm. congruence. }
      rewrite Hm. reflexivity.
    + apply scrape_element_excepted in He. rewrite He. simpl.
      f_equal. lia.
Qed.

Lemma records_from_origin page_number elements :
  forall index p,
    p ∈ records_from page_number index elements ->
    (index <= position p < index + Z.of_nat (length elements))%Z
    /\ exists e,
         elements !! Z.to_nat (position p - index) = Some e
         /\ scrape_element page_number (position p) e = Appended p.
Proof.
  induction elements as [|e rest IH]; intros index p Hp; simpl in Hp.
  - apply elem_of_nil in Hp. contradiction.
  - assert (Hrest : p ∈ records_from page_number (index + 1) rest ->
      (index <= position p < index + Z.of_nat (length (e :: rest)))%Z
      /\ exists e0,
           (e :: rest) !! Z.to_nat (position p - index) = Some e0
           /\ scrape_element page_number (position p) e0 = Appended p).
    { intros Hin. destruct (IH _ _ Hin) as (Hrange & e0 & Hlook & He0).
      split; [simpl length; lia|]. exists e0. split; [|exact He0].
      replace (Z.to_nat (position p - index))
        with (S (Z.to_nat (position p - (index + 1)))) by lia.
      exact Hlook. }
    destruct (scrape_element page_number index e) as [q| |] eqn:He;
      try (apply Hrest; exact Hp).
    apply elem_of_cons in Hp as [-> | Hp]; [|apply Hrest; exact Hp].
    destruct (scrape_element_appended _ _ _ _ He) as (_ & _ & _ & _ & _ & Hpos).
    rewrite Hpos. split; [simpl length; lia|].
    exists e. rewrite Z.sub_diag. split; [reflexivity | exact He].
Qed.

Lemma records_from_sorted page_number elements :
  forall index,
    StronglySorted position_lt (records_from page_number index elements).
Proof.
  induction elements as [|e rest IH]; intros index; simpl; [constructor|].
  destruct (scrape_element page_number index e) as [q| |] eqn:He;
    try apply IH.
  constructor; [apply IH|].
  apply Forall_forall. intros p Hp.
  apply records_from_origin in Hp as [Hrange _].
  apply scrape_element_appended in He as (_ & _ & _ & _ & _ & Hpos).
  unfold position_lt. lia.
Qed.

Lemma records_from_length page_number elements :
  forall index,
    length (records_from page_number index elements)
    + length (List.filter missing_heading_or_link elements)
    <= length elements.
Proof.
  induction elements as [|e rest IH]; intros index; simpl; [lia|].
  specialize (IH (index + 1)%Z).
  destruct (scrape_element page_number index e) as [q| |] eqn:He.
  - destruct (missing_heading_or_link e) eqn:Hm; simpl; [|lia].
    apply (scrape_element_excepted page_number index) in Hm. congruence.
  - destruct (missing_heading_or_link e); simpl; lia.
  - destruct (missing_heading_or_link e); simpl; lia.
Qed.

(** X10: Every record of a page scrape comes from the container at the record's
    own position (counted from 1 in document order), carries the page
    number passed in, and has a non-empty title, URL and price. *)
Theorem scraped_record_describes_its_container
    (driver : WebDriver) (page_number : Z) (p : Product) :
  p ∈ _scrape_products_on_current_page driver page_number ->
  let elements :=
    driver_find_elements driver XPATH
      "//div[@data-component-type='s-search-result']" in
  (1 <= position p <= Z.of_nat (length elements))%Z
  /\ (exists e,
        elements !! Z.to_nat (position p - 1) = Some e
        /\ scrape_element page_number (position p) e = Appended p)
  /\ page p = page_number
  /\ title p <> [] /\ url p <> [] /\ price p <> [].
Proof.
  intros Hp elements.
  unfold _scrape_products_on_current_page, scrape_page in Hp.
  fold elements in Hp. rewrite scrape_elements_eq in Hp. simpl in Hp.
  apply records_from_origin in Hp as (Hrange & e & Hlook & He).
  split; [lia|]. split; [exists e; auto|].
  apply scrape_element_appended in He. tauto.
Qed.

(** X11: The records of a page come in document order: their positions are
    strictly increasing, so no two records of a page share a position. *)
Theorem scraped_positions_increase (driver : WebDriver) (page_number : Z) :
  StronglySorted position_lt
    (_scrape_products_on_current_page driver page_number).
Proof.
  unfold _scrape_products_on_current_page, scrape_page.
  rewrite scrape_elements_eq. simpl. apply records_from_sorted.
Qed.

(** X12: The skip counter of a page is the number of containers in which the
    heading or the link cannot be found; containers left for an empty
    title, a missing or empty [href] or a missing price are not counted.
    Records and counted containers together never exceed the containers on
    the page. *)
Theorem skip_counter_counts_missing_heading_or_link
    (driver : WebDriver) (page_number : Z) :
  let elements :=
    driver_find_elements driver XPATH
      "//div[@data-component-type='s-search-result']" in
  snd (scrape_page driver page_number)
  = Z.of_nat (length (List.filter missing_heading_or_link elements))
  /\ length (fst (scrape_page driver page_number))
     + Z.to_nat (snd (scrape_page driver page_number))
     <= length elements.
Proof.
  intros elements. unfold scrape_page. fold elements.
  rewrite scrape_elements_eq. cbn [fst snd app].
  rewrite Z.add_0_l, Nat2Z.id. split; [reflexivity|].
  apply records_from_length.
Qed.
End PageFacts.

Lemma scraped_record_describes_its_container_witness :
  let driver := {| timeline := sample_web sample_url; now := 0 |} in
  let elements :=
    driver_find_elements driver XPATH
      "//div[@data-component-type='s-search-result']" in
  (1 <= position record_2 <= Z.of_nat (length elements))%Z
  /\ (exists e,
        elements !! Z.to_nat (position record_2 - 1) = Some e
        /\ scrape_element 1 (position record_2) e = Appended record_2)
  /\ page record_2 = 1%Z
  /\ title record_2 <> [] /\ url record_2 <> [] /\ price record_2 <> [].
Proof.
  intros driver.
  apply (scraped_record_describes_its_container driver 1 record_2).
  change (record_2 ∈ [record_1; record_2]). right. left.
Defined.

(** ** The Aggregation Loop: which pages, which records *)

Section LoopFacts.
Context `{Builtins}.
Variable documents : nat -> Document.
Variable max_pages : Z.
Variables min_price max_price : option float.
Variable title_contains : option str.

Local Abbreviation page_records_ :=
  (page_records documents min_price max_price title_contains).
Local Abbreviation pages_records_ :=
  (pages_records documents min_price max_price title_contains).
Local Abbreviation at_page := (at_page documents).

Lemma pages_records_S n :
  pages_records_ (S n) = pages_records_ n ++ page_records_ n.
Proof.
  unfold pages_records. rewrite seq_S, flat_map_app. simpl.
  rewrite app_nil_r. reflexivity.
Qed.

Lemma extended_at_page n st :
  at_page n st ->
  extended min_price max_price title_contains st
  = all_products st ++ page_records_ n.
Proof.
  intros (Hd & Hp & _). unfold extended, page_records.
  rewrite Hd, Hp. reflexivity.
Qed.

Lemma go_to_next_page_at n :
  _go_to_next_page {| timeline := documents; now := n |}
  = (has_next_control documents n,
     if has_next_control documents n
     then {| timeline := documents; now := S n |}
     else {| timeline := documents; now := n |}).
Proof.
  unfold _go_to_next_page, has_next_control, driver_find_element,
    driver_find_elements. simpl.
  destruct (lookup_all (documents n) XPATH _); reflexivity.
Qed.

(** One pass of the loop without a product limit. *)
Lemma iteration_unlimited n st :
  at_page n st ->
  iteration max_pages None min_price max_price title_contains st
  = if (Z.of_nat (S n) >=? max_pages)%Z || negb (has_next_control documents n)
    then Break (all_products st ++ page_records_ n) (S n)
    else Again {| driver := {| timeline := documents; now := S n |};
                  all_products := all_products st ++ page_records_ n;
                  current_page := Z.of_nat (S (S n));
                  cycles := S n |}.
Proof.
  intros Hat. pose proof (extended_at_page n st Hat) as Hext.
  destruct Hat as (Hd & Hp & Hc).
  unfold iteration. fold (extended min_price max_price title_contains st).
  rewrite Hext, Hd, Hp, Hc, go_to_next_page_at.
  destruct (Z.of_nat (S n) >=? max_pages)%Z; [reflexivity|]. simpl.
  destruct (has_next_control documents n); simpl; [|reflexivity].
  do 2 f_equal. lia.
Qed.

Lemma run_unlimited (left_ : nat) :
  forall n st,
    at_page n st ->
    (max_pages - Z.of_nat (S n) < Z.of_nat (S left_))%Z ->
    exists count,
      S n <= count <= S n + left_
      /\ (forall fuel, S left_ <= fuel ->
            while_true max_pages None min_price max_price title_contains
              fuel st
            = Some (all_products st
                    ++ flat_map page_records_ (seq n (count - n)), count))
      /\ (forall k, n <= k -> S k < count -> has_next_control documents k = true)
      /\ ((Z.of_nat count < max_pages)%Z ->
          has_next_control documents (count - 1) = false).
Proof.
  assert (Hstops : forall n st,
    at_page n st ->
    (Z.of_nat (S n) >=? max_pages)%Z
    || negb (has_next_control documents n) = true ->
    exists count,
      S n <= count <= S n
      /\ (forall fuel, 1 <= fuel ->
            while_true max_pages None min_price max_price title_contains
              fuel st
            = Some (all_products st
                    ++ flat_map page_records_ (seq n (count - n)), count))
      /\ (forall k, n <= k -> S k < count ->
            has_next_control documents k = true)
      /\ ((Z.of_nat count < max_pages)%Z ->
          has_next_control documents (count - 1) = false)).
  { intros n st Hat Hstop. pose proof (iteration_unlimited n st Hat) as Hit.
    rewrite Hstop in Hit.
    exists (S n). split; [lia|]. split; [|split].
    - intros [|fuel] Hfuel; [lia|]. cbn [while_true]. rewrite Hit.
      replace (S n - n) with 1 by lia. simpl. rewrite app_nil_r. reflexivity.
    - intros k Hk1 Hk2. lia.
    - intros Hlt. apply orb_true_iff in Hstop as [Hge | Hno].
      + apply Z.geb_le in Hge. lia.
      + replace (S n - 1) with n by lia.
        destruct (has_next_control documents n);
          [discriminate | reflexivity]. }
  induction left_ as [|left_ IH]; intros n st Hat Hleft;
    destruct ((Z.of_nat (S n) >=? max_pages)%Z
              || negb (has_next_control documents n)) eqn:Hstop.
  - destruct (Hstops n st Hat Hstop) as (count & Hc & Hrun & Hrest).
    exists count. split; [lia|]. split; [|exact Hrest].
    intros fuel Hfuel. apply Hrun. lia.
  - (* no page left below the bound, yet the loop goes on: impossible *)
    apply orb_false_iff in Hstop as [Hge _].
    rewrite Z.geb_leb in Hge. apply Z.leb_gt in Hge. lia.
  - destruct (Hstops n st Hat Hstop) as (count & Hc & Hrun & Hrest).
    exists count. split; [lia|]. split; [|exact Hrest].
    intros fuel Hfuel. apply Hrun. lia.
  - pose proof (iteration_unlimited n st Hat) as Hit. rewrite Hstop in Hit.
    apply orb_false_iff in Hstop as [Hge Hnext].
    apply negb_false_iff in Hnext.
    rewrite Z.geb_leb in Hge. apply Z.leb_gt in Hge.
    set (st' := {| driver := {| timeline := documents; now := S n |};
                   all_products := all_products st ++ page_records_ n;
                   current_page := Z.of_nat (S (S n));
                   cycles := S n |}) in *.
    destruct (IH (S n) st') as (count & Hcount & Hrun & Hbefore & Hafter).
    { repeat split. }
    { lia. }
    exists count. split; [lia|]. split; [|split].
    + intros [|fuel] Hfuel; [lia|]. cbn [while_true]. rewrite Hit.
      rewrite Hrun by lia. simpl all_products.
      replace (count - n) with (S (count - S n)) by lia.
      simpl. rewrite <- app_assoc. reflexivity.
    + intros k Hk1 Hk2. destruct (decide (k = n)) as [-> | Hne];
        [exact Hnext | apply Hbefore; lia].
    + exact Hafter.
Qed.
End LoopFacts.

Section AggregationFacts.
Context `{Builtins}.

(** X14: Without a product limit the loop returns the filtered records of the
    first [count] documents, page after page, where [count] is the number
    of scrapes: it goes on while the page shows an enabled next control and
    stops at the first page without one, or at page [max_pages]. *)
Theorem unlimited_run_concatenates_pages
    (web : str -> nat -> Document) (url : str) (max_pages : Z)
    (lo hi : option float) (title_contains : option str) :
  exists count,
    1 <= count <= Z.to_nat (Z.max 1 max_pages)
    /\ (forall fuel, Z.to_nat (Z.max 1 max_pages) <= fuel ->
          scrape_amazon_prices fuel web url max_pages None lo hi title_contains
          = Some (pages_records (web url) lo hi title_contains count, count))
    /\ (forall k, S k < count -> has_next_control (web url) k = true)
    /\ ((Z.of_nat count < max_pages)%Z ->
        has_next_control (web url) (count - 1) = false).
Proof.
  destruct (run_unlimited (web url) max_pages lo hi title_contains
              (Z.to_nat (Z.max 1 max_pages) - 1) 0
              (initial {| timeline := web url; now := 0 |}))
    as (count & Hcount & Hrun & Hbefore & Hafter).
  { repeat split. }
  { lia. }
  exists count. split; [lia|]. split; [|split].
  - intros fuel Hfuel. unfold scrape_amazon_prices. rewrite Hrun by lia.
    simpl. rewrite Nat.sub_0_r. reflexivity.
  - intros k Hk. apply Hbefore; lia.
  - exact Hafter.
Qed.
End AggregationFacts.

(** ** The Aggregation Loop: the product limit *)

Section LimitFacts.
Context `{Builtins}.
Variable max_pages : Z.
Variables min_price max_price : option float.
Variable title_contains : option str.

Local Abbreviation extended_ := (extended min_price max_price title_contains).
Local Abbreviation run_ limit :=
  (while_true max_pages limit min_price max_price title_contains).
Local Abbreviation pass_ limit :=
  (iteration max_pages limit min_price max_price title_contains).

(** With a limit that is not reached on this page, the pass is the pass
    without a limit; with a limit that is reached, it stops with the cut
    accumulator. *)
Lemma iteration_limited limit st :
  pass_ (Some limit) st
  = if (Z.of_nat (length (extended_ st)) >=? limit)%Z
    then Break (slice_to (extended_ st) limit) (S (cycles st))
    else pass_ None st.
Proof. reflexivity. Qed.

(** A run without a limit returns a list that starts with the accumulator
    extended by the page at hand, and counts at least one scrape more. *)
Lemma run_unlimited_prefix fuel :
  forall st result scrapes,
    run_ None fuel st = Some (result, scrapes) ->
    cycles st < scrapes
    /\ exists more, result = extended_ st ++ more.
Proof.
  induction fuel as [|fuel IH]; intros st result scrapes; [discriminate|].
  cbn [while_true].
  destruct (pass_ None st) as [r s|st'] eqn:Hit.
  - intros [= <- <-].
    assert (Hr : r = extended_ st /\ s = S (cycles st)).
    { unfold iteration in Hit. fold (extended_ st) in Hit.
      destruct (current_page st >=? max_pages)%Z;
        [injection Hit as <- <-; auto|].
      destruct (_go_to_next_page (driver st)) as [has_next driver_].
      destruct (negb has_next); [injection Hit as <- <-; auto | discriminate]. }
    destruct Hr as [-> ->]. split; [lia|]. exists []. symmetry.
    apply app_nil_r.
  - intros Hrun. apply IH in Hrun as (Hs & more & ->).
    assert (Hst' : all_products st' = extended_ st
                   /\ cycles st' = S (cycles st)).
    { unfold iteration in Hit. fold (extended_ st) in Hit.
      destruct (current_page st >=? max_pages)%Z; [discriminate|].
      destruct (_go_to_next_page (driver st)) as [has_next driver_].
      destruct (negb has_next); [discriminate|].
      injection Hit as <-. auto. }
    destruct Hst' as [Hacc Hcyc]. split; [lia|].
    unfold extended at 1. rewrite Hacc, <- app_assoc. eauto.
Qed.

Lemma run_limited_is_cut (limit : Z) fuel :
  (0 <= limit)%Z ->
  forall st result scrapes,
    run_ None fuel st = Some (result, scrapes) ->
    exists scrapes',
      run_ (Some limit) fuel st = Some (take (Z.to_nat limit) result, scrapes')
      /\ scrapes' <= scrapes.
Proof.
  intros Hlimit.
  induction fuel as [|fuel IH]; intros st result scrapes Hrun;
    [discriminate|].
  pose proof (run_unlimited_prefix _ _ _ _ Hrun) as (Hs & more & Hresult).
  cbn [while_true] in Hrun |- *. rewrite iteration_limited.
  destruct (Z.of_nat (length (extended_ st)) >=? limit)%Z eqn:Hreached.
  - exists (S (cycles st)). split; [|lia].
    unfold slice_to. destruct (0 <=? limit)%Z eqn:Hsign; [|lia].
    rewrite Hresult, take_app_le by lia. reflexivity.
  - destruct (pass_ None st) as [r s|st'] eqn:Hit.
    + injection Hrun as -> ->. exists scrapes. split; [|lia].
      rewrite take_ge; [reflexivity|].
      destruct more as [|x more'].
      * rewrite app_nil_r in Hresult. subst result. lia.
      * exfalso. (* a stopping pass returns the extended accumulator *)
        unfold iteration in Hit. fold (extended_ st) in Hit.
        assert (Hr : result = extended_ st).
        { destruct (current_page st >=? max_pages)%Z;
            [injection Hit as <- _; reflexivity|].
          destruct (_go_to_next_page (driver st)) as [has_next driver_].
          destruct (negb has_next);
            [injection Hit as <- _; reflexivity | discriminate]. }
        rewrite Hr in Hresult at 1.
        apply (f_equal length) in Hresult.
        rewrite length_app in Hresult. simpl in Hresult. lia.
    + apply IH. exact Hrun.
Qed.
End LimitFacts.

Section LimitClaims.
Context `{Builtins}.

(** X15: A non-negative product limit only cuts the result: the run with
    [max_products] returns the first [max_products] records of what the
    run without a limit returns, and scrapes no more pages than that one. *)
Theorem max_products_cuts_the_unlimited_result
    (web : str -> nat -> Document) (url : str) (max_pages limit : Z)
    (lo hi : option float) (title_contains : option str) :
  (0 <= limit)%Z ->
  exists result scrapes scrapes',
    (forall fuel, Z.to_nat (Z.max 1 max_pages) <= fuel ->
       scrape_amazon_prices fuel web url max_pages None lo hi title_contains
       = Some (result, scrapes)
       /\ scrape_amazon_prices fuel web url max_pages (Some limit) lo hi
            title_contains
          = Some (take (Z.to_nat limit) result, scrapes'))
    /\ scrapes' <= scrapes.
Proof.
  intros Hlimit. unfold scrape_amazon_prices.
  set (st := initial {| timeline := web url; now := 0 |}).
  destruct (while_true_total max_pages None lo hi title_contains
              (Z.to_nat (Z.max 1 max_pages) - 1) st)
    as (result & scrapes & Hrun & _).
  { simpl. lia. }
  destruct (while_true_total max_pages (Some limit) lo hi title_contains
              (Z.to_nat (Z.max 1 max_pages) - 1) st)
    as (cut & scrapes' & Hcut & _).
  { simpl. lia. }
  set (enough := S (Z.to_nat (Z.max 1 max_pages) - 1)) in *.
  destruct (run_limited_is_cut max_pages lo hi title_contains limit enough
              Hlimit st result scrapes (Hrun enough (le_n _)))
    as (s' & Hs' & Hle).
  rewrite (Hcut enough (le_n _)) in Hs'. injection Hs' as -> ->.
  exists result, scrapes, s'. split; [|exact Hle].
  intros fuel Hfuel. split; [apply Hrun | apply Hcut]; unfold enough; lia.
Qed.

(** X16: A limit of zero or less is reached at once: exactly one page is
    scraped and the result is the first page's filtered records cut by the
    slice [[:max_products]]; for a limit of zero that is the empty list. *)
Theorem non_positive_limit_stops_after_one_page
    (web : str -> nat -> Document) (url : str) (max_pages limit : Z)
    (lo hi : option float) (title_contains : option str) :
  (limit <= 0)%Z ->
  forall fuel, 1 <= fuel ->
    scrape_amazon_prices fuel web url max_pages (Some limit) lo hi
      title_contains
    = Some (slice_to (page_records (web url) lo hi title_contains 0) limit, 1)
    /\ (limit = 0%Z ->
        slice_to (page_records (web url) lo hi title_contains 0) limit = []).
Proof.
  intros Hlimit [|fuel] Hfuel; [lia|]. split.
  - unfold scrape_amazon_prices. cbn [while_true].
    rewrite iteration_limited.
    destruct (Z.of_nat (length _) >=? limit)%Z eqn:Hreached;
      [reflexivity|].
    rewrite Z.geb_leb in Hreached. apply Z.leb_gt in Hreached.
    pose proof (Nat2Z.is_nonneg
                  (length (extended lo hi title_contains
                             (initial {| timeline := web url; now := 0 |})))).
    lia.
  - intros ->. reflexivity.
Qed.

(** X17: With [max_pages] of one or less, zero and negative values included,
    and no product limit, exactly one page is scraped and the result is the
    first page's filtered records. *)
Theorem single_page_when_max_pages_at_most_one
    (web : str -> nat -> Document) (url : str) (max_pages : Z)
    (lo hi : option float) (title_contains : option str) :
  (max_pages <= 1)%Z ->
  forall fuel, 1 <= fuel ->
    scrape_amazon_prices fuel web url max_pages None lo hi title_contains
    = Some (page_records (web url) lo hi title_contains 0, 1).
Proof.
  intros Hpages [|fuel] Hfuel; [lia|].
  unfold scrape_amazon_prices. cbn [while_true].
  rewrite (iteration_unlimited (web url) max_pages lo hi title_contains 0);
    [|repeat split].
  replace (Z.of_nat 1 >=? max_pages)%Z with true
    by (symmetry; apply Z.geb_le; lia).
  reflexivity.
Qed.
End LimitClaims.

Lemma max_products_cuts_the_unlimited_result_witness :
  (0 <= 4)%Z
  /\ exists result scrapes scrapes',
       (forall fuel, Z.to_nat (Z.max 1 5) <= fuel ->
          scrape_amazon_prices fuel endless_web sample_url 5 None None None None
          = Some (result, scrapes)
          /\ scrape_amazon_prices fuel endless_web sample_url 5 (Some 4%Z)
               None None None
             = Some (take (Z.to_nat 4) result, scrapes'))
       /\ scrapes' <= scrapes.
Proof.
  split; [lia|].
  apply (max_products_cuts_the_unlimited_result endless_web sample_url 5 4
           None None None).
  lia.
Defined.

Lemma non_positive_limit_stops_after_one_page_witness :
  scrape_amazon_prices 3 endless_web sample_url 5 (Some (-1)%Z) None None None
  = Some (slice_to (page_records (endless_web sample_url) None None None 0)
            (-1), 1)
  /\ ((-1)%Z = 0%Z ->
      slice_to (page_records (endless_web sample_url) None None None 0) (-1)
      = []).
Proof.
  apply (non_positive_limit_stops_after_one_page endless_web sample_url 5
           (-1) None None None); lia.
Defined.

Lemma single_page_when_max_pages_at_most_one_witness :
  scrape_amazon_prices 3 endless_web sample_url 0 None None None None
  = Some (page_records (endless_web sample_url) None None None 0, 1).
Proof.
  apply (single_page_when_max_pages_at_most_one endless_web sample_url 0
           None None None); lia.
Defined.

(** ** The Aggregation Loop: what is returned *)

Section SortedFacts.
Context {A : Type}.

Lemma StronglySorted_sublist (R : A -> A -> Prop) (l k : list A) :
  l `sublist_of` k -> StronglySorted R k -> StronglySorted R l.
Proof.
  induction 1 as [|x l k Hsub IH|x l k Hsub IH]; intros Hk.
  - constructor.
  - apply StronglySorted_inv in Hk as [Hk Hx].
    constructor; [auto|].
    apply Forall_forall. intros y Hy.
    rewrite Forall_forall in Hx. apply Hx.
    apply (sublist_elem_of l k); assumption.
  - apply StronglySorted_inv in Hk as [Hk _]. auto.
Qed.

Lemma StronglySorted_weaken (R R' : A -> A -> Prop) (l : list A) :
  (forall x y, x ∈ l -> y ∈ l -> R x y -> R' x y) ->
  StronglySorted R l -> StronglySorted R' l.
Proof.
  intros Himp Hl. induction Hl as [|x l Hl IH Hx]; [constructor|].
  constructor.
  - apply IH. intros a b Ha Hb. apply Himp; right; assumption.
  - apply Forall_forall. intros y Hy. rewrite Forall_forall in Hx.
    apply Himp; [left | right; exact Hy | apply Hx; exact Hy].
Qed.

Lemma StronglySorted_NoDup (R : A -> A -> Prop) (l : list A) :
  (forall x, ~ R x x) -> StronglySorted R l -> NoDup l.
Proof.
  intros Hirr Hl. induction Hl as [|x l Hl IH Hx]; constructor; [|exact IH].
  intros Hin. rewrite Forall_forall in Hx. exact (Hirr x (Hx x Hin)).
Qed.
End SortedFacts.

Section ReturnedFacts.
Context `{Builtins}.
Variable max_pages : Z.
Variable max_products : option Z.
Variables min_price max_price : option float.
Variable title_contains : option str.

Local Abbreviation extended_ := (extended min_price max_price title_contains).
Local Abbreviation well_formed_ :=
  (well_formed min_price max_price title_contains).
Local Abbreviation pass_ :=
  (iteration max_pages max_products min_price max_price title_contains).
Local Abbreviation run_ :=
  (while_true max_pages max_products min_price max_price title_contains).

Local Abbreviation loop_invariant :=
  (loop_invariant min_price max_price title_contains).

Lemma slice_to_take {A : Type} (l : list A) (stop : Z) :
  exists n, slice_to l stop = take n l.
Proof. unfold slice_to. destruct (0 <=? stop)%Z; eauto. Qed.

Lemma pass_break st result scrapes :
  pass_ st = Break result scrapes ->
  scrapes = S (cycles st) /\ exists n, result = take n (extended_ st).
Proof.
  unfold iteration. fold (extended_ st).
  assert (Hrest : forall r s,
    (if (current_page st >=? max_pages)%Z
     then Break (extended_ st) (S (cycles st))
     else
       let '(has_next, driver_) := _go_to_next_page (driver st) in
       if negb has_next then Break (extended_ st) (S (cycles st))
       else Again {| driver := driver_;
                     all_products := extended_ st;
                     current_page := (current_page st + 1)%Z;
                     cycles := S (cycles st) |}) = Break r s ->
    s = S (cycles st) /\ exists n, r = take n (extended_ st)).
  { intros r s.
    assert (Hall : exists n, extended_ st = take n (extended_ st)).
    { exists (length (extended_ st)). symmetry. apply take_ge. lia. }
    destruct (current_page st >=? max_pages)%Z;
      [intros [= <- <-]; auto|].
    destruct (_go_to_next_page (driver st)) as [has_next driver_].
    destruct (negb has_next); [intros [= <- <-]; auto | discriminate]. }
  destruct max_products as [limit|]; [|apply Hrest].
  destruct (Z.of_nat (length (extended_ st)) >=? limit)%Z; [|apply Hrest].
  intros [= <- <-]. split; [reflexivity | apply slice_to_take].
Qed.

Lemma pass_again st st' :
  pass_ st = Again st' ->
  all_products st' = extended_ st
  /\ current_page st' = (current_page st + 1)%Z
  /\ cycles st' = S (cycles st).
Proof.
  unfold iteration. fold (extended_ st).
  assert (Hrest :
    (if (current_page st >=? max_pages)%Z
     then Break (extended_ st) (S (cycles st))
     else
       let '(has_next, driver_) := _go_to_next_page (driver st) in
       if negb has_next then Break (extended_ st) (S (cycles st))
       else Again {| driver := driver_;
                     all_products := extended_ st;
                     current_page := (current_page st + 1)%Z;
                     cycles := S (cycles st) |}) = Again st' ->
    all_products st' = extended_ st
    /\ current_page st' = (current_page st + 1)%Z
    /\ cycles st' = S (cycles st)).
  { destruct (current_page st >=? max_pages)%Z; [discriminate|].
    destruct (_go_to_next_page (driver st)) as [has_next driver_].
    destruct (negb has_next); [discriminate|].
    intros [= <-]. auto. }
  destruct max_products as [limit|]; [|exact Hrest].
  destruct (Z.of_nat (length (extended_ st)) >=? limit)%Z;
    [discriminate | exact Hrest].
Qed.

(** The filtered records of one page: well formed, on that page, in
    document order. *)
Lemma filtered_page_facts (session : WebDriver) (page_number : Z) :
  let records :=
    _apply_filters (_scrape_products_on_current_page session page_number)
      min_price max_price title_contains in
  (1 <= page_number)%Z ->
  Forall (fun p => well_formed_ page_number p /\ page p = page_number) records
  /\ StronglySorted position_lt records.
Proof.
  intros records Hpage.
  assert (Hsub : records `sublist_of`
                   _scrape_products_on_current_page session page_number)
    by apply apply_filters_sublist.
  split.
  - apply Forall_forall. intros p Hp.
    assert (Hsat : no_predicates min_price max_price title_contains = false ->
                   price_parses p = true
                   /\ passes min_price max_price title_contains p = true
                   /\ (bound_is_number min_price = true ->
                       bound_is_number max_price = true ->
                       price_is_number p = true ->
                       satisfies min_price max_price title_contains p
                       = true)).
    { intros Hno. unfold records in Hp. rewrite apply_filters_eq, Hno in Hp.
      apply elem_of_filter_bool in Hp as [_ Hp].
      apply andb_true_iff in Hp as [Hparses Hpasses].
      split; [exact Hparses|]. split; [exact Hpasses|].
      intros Hlo Hhi Hnumber.
      rewrite <- (passes_satisfies _ _ _ _ Hlo Hhi Hnumber). exact Hpasses. }
    apply (sublist_elem_of _ _ _ Hsub) in Hp.
    unfold _scrape_products_on_current_page, scrape_page in Hp.
    rewrite scrape_elements_eq in Hp. simpl in Hp.
    apply records_from_origin in Hp as ([Hlow _] & e & _ & He).
    apply scrape_element_appended in He
      as (Ht & Hu & Hpr & Hcur & Hpg & _).
    split; [|exact Hpg]. unfold well_formed.
    split; [|split; [|split; [|split; [|split; [|split]]]]]; auto; lia.
  - apply (StronglySorted_sublist _ _ _ Hsub).
    unfold _scrape_products_on_current_page, scrape_page.
    rewrite scrape_elements_eq. simpl. apply records_from_sorted.
Qed.

Lemma well_formed_mono bound bound' p :
  (bound <= bound')%Z -> well_formed_ bound p -> well_formed_ bound' p.
Proof. unfold well_formed. intros Hb Hp. repeat split; try tauto; lia. Qed.

Lemma extended_invariant st :
  loop_invariant st ->
  Forall (well_formed_ (Z.of_nat (S (cycles st)))) (extended_ st)
  /\ StronglySorted record_lt (extended_ st).
Proof.
  intros (Hpage & Hwf & Hsorted).
  destruct (filtered_page_facts (driver st) (current_page st))
    as [Hnew_wf Hnew_sorted]; [lia|].
  rewrite Forall_forall in Hwf, Hnew_wf.
  unfold extended. split.
  - apply Forall_app. split; apply Forall_forall; intros p Hp.
    + apply (well_formed_mono (Z.of_nat (cycles st))); [lia | auto].
    + rewrite <- Hpage. apply Hnew_wf. exact Hp.
  - apply StronglySorted_app. split; [|split].
    + intros a b Ha Hb. left.
      apply Hwf in Ha as (_ & _ & _ & _ & Ha & _).
      apply Hnew_wf in Hb as [_ Hb]. lia.
    + exact Hsorted.
    + apply (StronglySorted_weaken position_lt); [|exact Hnew_sorted].
      intros a b Ha Hb Hlt. right.
      apply Hnew_wf in Ha as [_ Ha]. apply Hnew_wf in Hb as [_ Hb].
      split; [congruence | exact Hlt].
Qed.

Lemma run_invariant fuel :
  forall st result scrapes,
    loop_invariant st ->
    run_ fuel st = Some (result, scrapes) ->
    Forall (well_formed_ (Z.of_nat scrapes)) result
    /\ StronglySorted record_lt result.
Proof.
  induction fuel as [|fuel IH]; intros st result scrapes Hinv;
    [discriminate|].
  destruct (extended_invariant st Hinv) as [Hwf Hsorted].
  cbn [while_true].
  destruct (pass_ st) as [r s|st'] eqn:Hit.
  - intros [= <- <-].
    apply pass_break in Hit as [-> [n ->]]. split.
    + apply Forall_take. exact Hwf.
    + apply (StronglySorted_sublist _ _ _ (sublist_take _ _)). exact Hsorted.
  - apply pass_again in Hit as (Hacc & Hpage & Hcyc).
    apply IH. destruct Hinv as (Hcur & _ & _).
    unfold loop_invariant. rewrite Hacc, Hpage, Hcyc.
    split; [lia | split; assumption].
Qed.
End ReturnedFacts.

Section ReturnedClaims.
Context `{Builtins}.

Lemma record_lt_irrefl (p : Product) : ~ record_lt p p.
Proof. unfold record_lt. lia. Qed.

(** X18: Whatever the limits and filters, every returned record has a
    non-empty title, URL, price and currency, a page number between 1 and
    the number of pages scraped, a position of at least 1 and, when a
    predicate is supplied, a price that parses as a float and passes the
    script's tests (the title contains a non-empty query without regard to
    case, [value < min_price] and [value > max_price] are false); where no
    supplied bound and not the parsed price is NaN, the record satisfies
    all supplied predicates ([min_price <= price <= max_price]). *)
Theorem returned_records_are_well_formed
    (web : str -> nat -> Document) (url : str) (max_pages : Z)
    (max_products : option Z) (lo hi : option float)
    (title_contains : option str) :
  exists result scrapes,
    (forall fuel, Z.to_nat (Z.max 1 max_pages) <= fuel ->
       scrape_amazon_prices fuel web url max_pages max_products lo hi
         title_contains
       = Some (result, scrapes))
    /\ Forall (well_formed lo hi title_contains (Z.of_nat scrapes)) result.
Proof.
  unfold scrape_amazon_prices.
  set (st := initial {| timeline := web url; now := 0 |}).
  destruct (while_true_total max_pages max_products lo hi title_contains
              (Z.to_nat (Z.max 1 max_pages) - 1) st)
    as (result & scrapes & Hrun & _).
  { simpl. lia. }
  exists result, scrapes. split.
  - intros fuel Hfuel. apply Hrun. lia.
  - eapply (run_invariant max_pages max_products lo hi title_contains);
      [|apply (Hrun _ (le_n _))].
    repeat split; simpl; constructor.
Qed.

(** X19: The returned list is in document order across pages: strictly
    increasing by page number and, within a page, by position. Hence no
    record is returned twice, also when every page shows the same
    listings. *)
Theorem returned_records_in_document_order
    (web : str -> nat -> Document) (url : str) (max_pages : Z)
    (max_products : option Z) (lo hi : option float)
    (title_contains : option str) :
  exists result scrapes,
    (forall fuel, Z.to_nat (Z.max 1 max_pages) <= fuel ->
       scrape_amazon_prices fuel web url max_pages max_products lo hi
         title_contains
       = Some (result, scrapes))
    /\ StronglySorted record_lt result
    /\ NoDup result.
Proof.
  unfold scrape_amazon_prices.
  set (st := initial {| timeline := web url; now := 0 |}).
  destruct (while_true_total max_pages max_products lo hi title_contains
              (Z.to_nat (Z.max 1 max_pages) - 1) st)
    as (result & scrapes & Hrun & _).
  { simpl. lia. }
  assert (Hsorted : StronglySorted record_lt result).
  { eapply (run_invariant max_pages max_products lo hi title_contains);
      [|apply (Hrun _ (le_n _))].
    repeat split; simpl; constructor. }
  exists result, scrapes. split; [|split].
  - intros fuel Hfuel. apply Hrun. lia.
  - exact Hsorted.
  - exact (StronglySorted_NoDup _ _ record_lt_irrefl Hsorted).
Qed.
End ReturnedClaims.

(** ** Saving: the CSV text *)

Section CsvFacts.

Lemma u_inj (s t : string) : u s = u t -> s = t.
Proof.
  revert t. induction s as [|a s IH]; intros [|b t]; simpl;
    try discriminate; [reflexivity|].
  intros [= Hab Hst]. f_equal; [|auto].
  rewrite <- (ascii_N_embedding a), <- (ascii_N_embedding b), Hab.
  reflexivity.
Qed.

Lemma str_of_int_inj (m n : Z) : str_of_int m = str_of_int n -> m = n.
Proof. intros Hmn. apply u_inj in Hmn. exact (pretty_Z_inj _ _ Hmn). Qed.

Lemma pretty_N_char_plain (x : N) :
  is_special (N_of_ascii (pretty_N_char x)) = false.
Proof.
  unfold pretty_N_char. repeat case_match; reflexivity.
Qed.

Lemma pretty_N_go_plain (x : N) :
  forall s, needs_quoting (u s) = false ->
            needs_quoting (u (pretty_N_go x s)) = false.
Proof.
  induction (N.lt_wf_0 x) as [x _ IH]; intros s Hs.
  destruct (N.eq_dec x 0%N) as [-> | Hx]; [exact Hs|].
  rewrite pretty_N_go_step by lia.
  apply IH; [apply N.div_lt; lia|].
  simpl. unfold needs_quoting in *. simpl.
  rewrite pretty_N_char_plain. exact Hs.
Qed.

(** An integer is written without quotes. *)
Lemma str_of_int_plain (n : Z) : needs_quoting (str_of_int n) = false.
Proof.
  unfold str_of_int, pretty, pretty_Z.
  assert (Hpos : forall p, needs_quoting (u (pretty (N.pos p))) = false).
  { intros p. unfold pretty, pretty_N.
    destruct (decide (N.pos p = 0%N)); [reflexivity|].
    apply pretty_N_go_plain. reflexivity. }
  destruct n as [|p|p]; [reflexivity | apply Hpos |].
  change (needs_quoting (45%N :: u (pretty (N.pos p))) = false).
  unfold needs_quoting in *. simpl. apply Hpos.
Qed.

Lemma csv_field_plain (field : str) :
  needs_quoting field = false -> csv_field field = field.
Proof. unfold csv_field. intros ->. reflexivity. Qed.

Lemma not_special_head (c : char) (field : str) :
  needs_quoting (c :: field) = false ->
  is_special c = false /\ needs_quoting field = false.
Proof. unfold needs_quoting. simpl. apply orb_false_iff. Qed.

(** Two unquoted fields followed by a separator: the first separator ends
    the field. *)
Lemma unquoted_split (a : str) :
  forall b s s' ra rb,
    needs_quoting a = false -> needs_quoting b = false ->
    is_special s = true -> is_special s' = true ->
    a ++ s :: ra = b ++ s' :: rb ->
    a = b /\ s :: ra = s' :: rb.
Proof.
  induction a as [|c a IH]; intros [|c' b] s s' ra rb Ha Hb Hs Hs'; simpl.
  - auto.
  - intros [= -> _]. apply not_special_head in Hb as [Hc _]. congruence.
  - intros [= -> _]. apply not_special_head in Ha as [Hc _]. congruence.
  - intros [= -> Hrest].
    apply not_special_head in Ha as [_ Ha].
    apply not_special_head in Hb as [_ Hb].
    destruct (IH b s s' ra rb Ha Hb Hs Hs' Hrest) as [-> Htail]. auto.
Qed.

(** Inside quotes: the first quote that is not doubled ends the field. *)
Lemma quoted_split (a : str) :
  forall b s s' ra rb,
    s <> dquote -> s' <> dquote ->
    double_quotes a ++ dquote :: s :: ra
    = double_quotes b ++ dquote :: s' :: rb ->
    a = b /\ s :: ra = s' :: rb.
Proof.
  induction a as [|c a IH]; intros [|c' b] s s' ra rb Hs Hs'; simpl.
  - intros [= -> ->]. auto.
  - destruct (N.eqb c' dquote) eqn:Hc'.
    + intros [= -> _]. contradiction.
    + intros [= <- _]. rewrite N.eqb_refl in Hc'. discriminate.
  - destruct (N.eqb c dquote) eqn:Hc.
    + intros [= <- _]. contradiction.
    + intros [= -> _]. rewrite N.eqb_refl in Hc. discriminate.
  - destruct (N.eqb c dquote) eqn:Hc, (N.eqb c' dquote) eqn:Hc'.
    + intros [= Hrest]. apply N.eqb_eq in Hc, Hc'. subst c c'.
      destruct (IH b s s' ra rb Hs Hs' Hrest) as [-> Htail]. auto.
    + intros [= <- _]. rewrite N.eqb_refl in Hc'. discriminate.
    + intros [= -> _]. rewrite N.eqb_refl in Hc. discriminate.
    + intros [= -> Hrest].
      destruct (IH b s s' ra rb Hs Hs' Hrest) as [-> Htail]. auto.
Qed.

Lemma separator_special c : separator c -> is_special c = true.
Proof. intros [-> | ->]; reflexivity. Qed.

Lemma separator_not_quote c : separator c -> c <> dquote.
Proof. intros [-> | ->]; discriminate. Qed.

(** A written field followed by a separator can be read back in one way
    only. *)
Lemma field_split (a b : str) s s' ra rb :
  separator s -> separator s' ->
  csv_field a ++ s :: ra = csv_field b ++ s' :: rb ->
  a = b /\ s :: ra = s' :: rb.
Proof.
  intros Hs Hs'. unfold csv_field.
  destruct (needs_quoting a) eqn:Ha, (needs_quoting b) eqn:Hb; simpl.
  - rewrite <- !app_assoc. simpl. intros [= Hrest].
    apply (quoted_split a b s s' ra rb); auto using separator_not_quote.
  - intros Heq. exfalso. destruct b as [|c' b]; simpl in Heq.
    + injection Heq as <- _. exact (separator_not_quote _ Hs' eq_refl).
    + injection Heq as <- _. apply not_special_head in Hb as [Hc _].
      discriminate.
  - intros Heq. exfalso. destruct a as [|c a]; simpl in Heq.
    + injection Heq as -> _. exact (separator_not_quote _ Hs eq_refl).
    + injection Heq as -> _. apply not_special_head in Ha as [Hc _].
      discriminate.
  - apply unquoted_split; auto using separator_special.
Qed.

(** The fields of a row followed by the row end can be read back in one
    way only. *)
Lemma join_fields_split (fs : list str) :
  forall gs ra rb,
    fs <> [] -> gs <> [] ->
    join_fields fs ++ CR :: ra = join_fields gs ++ CR :: rb ->
    fs = gs /\ ra = rb.
Proof.
  induction fs as [|f fs IH]; intros [|g gs] ra rb Hfs Hgs;
    try contradiction.
  destruct fs as [|f' fs], gs as [|g' gs].
  - cbn [join_fields]. intros Heq.
    apply field_split in Heq as [-> [= ->]]; [auto | right | right];
      reflexivity.
  - cbn [join_fields]. rewrite <- app_assoc. cbn [app]. intros Heq.
    apply field_split in Heq as [_ [= ]]; [right | left]; reflexivity.
  - cbn [join_fields]. rewrite <- app_assoc. cbn [app]. intros Heq.
    apply field_split in Heq as [_ [= ]]; [left | right]; reflexivity.
  - change (join_fields (f :: f' :: fs))
      with (csv_field f ++ comma :: join_fields (f' :: fs)).
    change (join_fields (g :: g' :: gs))
      with (csv_field g ++ comma :: join_fields (g' :: gs)).
    rewrite <- !app_assoc. cbn [app]. intros Heq.
    apply field_split in Heq as [-> [= Hrest]]; [|left|left]; try reflexivity.
    destruct (IH (g' :: gs) ra rb) as [Hfs' ->]; try discriminate;
      [exact Hrest|].
    rewrite Hfs'. auto.
Qed.

Lemma row_values_inj (p q : Product) : row_values p = row_values q -> p = q.
Proof.
  destruct p, q. unfold row_values. simpl.
  intros [= -> -> -> -> Hpage Hpos].
  apply str_of_int_inj in Hpage, Hpos. subst. reflexivity.
Qed.

Lemma csv_row_values (p : Product) :
  csv_row (row_values p) = join_fields (row_values p) ++ [CR; LF].
Proof. unfold csv_row, row_values. destruct (title p); reflexivity. Qed.

Lemma rows_inj (ps : list Product) :
  forall qs,
    flat_map (fun p => csv_row (row_values p)) ps
    = flat_map (fun p => csv_row (row_values p)) qs ->
    ps = qs.
Proof.
  induction ps as [|p ps IH]; intros [|q qs]; cbn [flat_map].
  - reflexivity.
  - rewrite csv_row_values.
    destruct (join_fields (row_values q)); discriminate.
  - rewrite csv_row_values.
    destruct (join_fields (row_values p)); discriminate.
  - rewrite !csv_row_values, <- !app_assoc. cbn [app]. intros Heq.
    apply join_fields_split in Heq as [Hrow [= Hrest]]; try discriminate.
    apply row_values_inj in Hrow. apply IH in Hrest. congruence.
Qed.

Lemma csv_text_inj (ps qs : list Product) :
  csv_text ps = csv_text qs -> ps = qs.
Proof.
  unfold csv_text. intros Htext. apply app_inv_head in Htext.
  apply rows_inj. exact Htext.
Qed.

(** X20: The export loses nothing: two different non-empty record lists saved to
    a path leave different files, whatever commas, quotes or line breaks
    their fields contain. *)
Theorem saved_file_determines_records
    (fs fs' : FileSystem) (ps qs : list Product) (output_path : str) :
  ps <> [] -> qs <> [] ->
  save_products_to_csv fs ps output_path !! output_path
  = save_products_to_csv fs' qs output_path !! output_path ->
  ps = qs.
Proof.
  unfold save_products_to_csv. intros Hps Hqs.
  destruct ps as [|p ps]; [contradiction|].
  destruct qs as [|q qs]; [contradiction|].
  cbn [truthy negb]. rewrite !lookup_insert_eq. intros Htext.
  apply csv_text_inj. apply (inj Some). exact Htext.
Qed.

(** X21: A record whose title, URL, price and currency contain no comma, double
    quote or line break is written as its six values separated by commas,
    in the order title, URL, price, currency, page, position, and ended by
    CR LF. *)
Theorem plain_record_row (p : Product) :
  needs_quoting (title p) = false -> needs_quoting (url p) = false ->
  needs_quoting (price p) = false -> needs_quoting (currency p) = false ->
  csv_row (row_values p)
  = title p ++ comma :: url p ++ comma :: price p ++ comma :: currency p
    ++ comma :: str_of_int (page p) ++ comma :: str_of_int (position p)
    ++ [CR; LF].
Proof.
  intros Ht Hu Hp Hc. rewrite csv_row_values. unfold row_values.
  cbn [join_fields].
  rewrite !csv_field_plain by (assumption || apply str_of_int_plain).
  rewrite <- !app_assoc. cbn [app].
  repeat (rewrite <- ?app_assoc; cbn [app]; f_equal).
Qed.
End CsvFacts.

Lemma saved_file_determines_records_witness :
  [record_1; record_us] = [record_1; record_us].
Proof.
  apply (saved_file_determines_records
           ∅ {[ u "out.csv" := u "old" ]}
           [record_1; record_us] [record_1; record_us] (u "out.csv"));
    [discriminate | discriminate | reflexivity].
Defined.

Lemma plain_record_row_witness :
  csv_row (row_values record_1)
  = title record_1 ++ comma :: url record_1 ++ comma :: price record_1
    ++ comma :: currency record_1 ++ comma :: str_of_int (page record_1)
    ++ comma :: str_of_int (position record_1) ++ [CR; LF].
Proof. apply plain_record_row; reflexivity. Defined.

(** ** The whole run *)

Section MainFacts.
Context `{Builtins}.

End MainFacts.

Example main_on_sample_page :
  match main 1 sample_web (fun _ => u "<html></html>") true (fun path => path)
          sample_args ∅ with
  | Some fs => (fs !! u "out.csv", fs !! debug_path)
  | None => (None, None)
  end
  = (Some (u "title,url,price,currency,page,position" ++ [CR; LF]
           ++ u "Sample Product 1,https://www.example.com/product-1,19.99,$,1,1"
           ++ [CR; LF]),
     Some (u "<html></html>")).
Proof. vm_compute. reflexivity. Qed.

(** A price of ["nan"] passes every bound of the loop, and satisfies
    none. *)
Example nan_price_passes_every_bound :
  _apply_filters
    [{| title := u "Wireless Mouse"; url := u "https://www.example.com/mouse";
        price := u "nan"; currency := u "$"; page := 1; position := 1 |}]
    (Some 20%float) (Some 10%float) None
  = [{| title := u "Wireless Mouse"; url := u "https://www.example.com/mouse";
        price := u "nan"; currency := u "$"; page := 1; position := 1 |}]
  /\ filter_engine_spec
       [{| title := u "Wireless Mouse";
           url := u "https://www.example.com/mouse";
           price := u "nan"; currency := u "$"; page := 1; position := 1 |}]
       (Some 20%float) (Some 10%float) None
     = [].
Proof. vm_compute. split; reflexivity. Qed.

(** ** The Page Scraper: an offscreen string without a number *)

Section BareSymbol.
Context `{Builtins}.

(** X13: When the offscreen string has nothing left after its first character
    (a bare symbol, or a symbol followed only by commas and blanks), the
    container yields no record and is not counted, even if its
    whole/fraction pair holds a price: the offscreen string was tried first
    and its empty price ends the container. *)
Theorem empty_offscreen_number_drops_the_container
    (page_number index : Z) (e pc : WebElement) (c : char) (rest : str)
    (title_ href : str) :
  title_and_url e = Some (title_, href) ->
  price_container e = Some pc ->
  offscreen_text pc = c :: rest ->
  remove_commas (strip rest) = [] ->
  _parse_price_block e = Some ([], [c])
  /\ scrape_element page_number index e = Continued.
Proof.
  intros Htu Hpc Hoff Hempty.
  assert (Hparse : _parse_price_block e = Some ([], [c])).
  { unfold price_container, offscreen_text in *.
    unfold _parse_price_block. rewrite Hpc, Hoff, Hempty. reflexivity. }
  split; [exact Hparse|].
  unfold scrape_element. unfold title_and_url in Htu.
  destruct (find_with_fallback e "h2 span" "h2") as [t|]; [|discriminate].
  destruct (find_with_fallback e _ "a.a-link-normal") as [l|];
    [|discriminate].
  destruct (get_attribute l "href") as [h0|]; [|reflexivity].
  rewrite Hparse. destruct (negb _ || negb _); reflexivity.
Qed.
End BareSymbol.

Lemma empty_offscreen_number_drops_the_container_witness :
  _parse_price_block bare_symbol_listing = Some ([], [dollar])
  /\ scrape_element 1 1 bare_symbol_listing = Continued.
Proof.
  refine (empty_offscreen_number_drops_the_container 1 1 bare_symbol_listing
            (full_block "$" "$" "19" "99") dollar []
            (u "Sample Product 8") (u "https://www.example.com/product-8")
            _ _ _ _);
    reflexivity.
Defined.
